(** * chbreak: breaking out of a chroot with the chdir("..") technique

    A shallow embedding of [chbreak.c].  The program is one [main] made of
    system and C-library calls, so it is embedded as an interaction tree
    whose events are those calls.  An operating system is any function that
    answers the calls over some state; [run] executes the tree against one.
    A small model of the kernel's per-process state (root directory, working
    directory, a file system keyed by real paths) gives the calls the meaning
    the comments of [chbreak.c] rely on. *)

From Stdlib Require Import ZArith List String Ascii Bool Lia Arith.
From ITree Require Import ITree.
Import ListNotations.
Import ITreeNotations.
Local Open Scope list_scope.
Local Open Scope string_scope.
Local Open Scope itree_scope.
Local Open Scope Z_scope.

(** ** Constants of the C environment *)

(** One-character strings that cannot be written inside a literal. *)
Definition nl : string := String (ascii_of_nat 10) EmptyString.
Definition dq : string := String (ascii_of_nat 34) EmptyString.

(** [errno.h] (Linux numbering). *)
Definition EPERM : Z := 1.
Definition ENOENT : Z := 2.
Definition EBADF : Z := 9.
Definition EEXIST : Z := 17.
Definition ENOTDIR : Z := 20.

(** [fcntl.h] and [sys/stat.h]. *)
Definition O_RDONLY : Z := 0.
Definition S_IFMT : Z := 61440.   (* 0170000 *)
Definition S_IFDIR : Z := 16384.  (* 0040000 *)
Definition S_IFREG : Z := 32768.  (* 0100000 *)
Definition S_ISDIR (m : Z) : bool := Z.land m S_IFMT =? S_IFDIR.

(** The fields of [struct stat] that the program reads. *)
Record stat_t : Type := mk_stat { st_dev : Z; st_ino : Z; st_mode : Z }.

Inductive stream : Type := stdout | stderr.

(** ** Macros of chbreak.c *)

(** [#define NEED_FCHDIR 0].  A macro is either undefined or defined with a
    value; [#ifdef] looks at definedness only. *)
Definition NEED_FCHDIR : option Z := Some 0.
Definition ifdef {A : Type} (m : option A) : bool :=
  match m with Some _ => true | None => false end.

Definition TEMP_DIR : string := "waterbuffalo".

(** ** Calls made by the program *)

Inductive call : Type :=
| Stat (path : string)
| Mkdir (path : string) (mode : Z)
| Open (path : string) (flags : Z)
| Chroot (path : string)
| Geteuid
| Fchdir (fd : Z)
| Close (fd : Z)
| Chdir (path : string)
| Errno
| Fflush (s : stream)
| Fprintf (s : stream) (text : string)
| Opendir (path : string)
| Readdir (dir : Z)
| Closedir (dir : Z)
| Execl (path : string) (args : list string)
| Exit (status : Z)
| Undefined.

(** What each call hands back to the program.  [stat] gives its return value
    and the buffer it filled; [opendir] and [readdir] give a pointer, [None]
    for NULL; [Errno] is a read of the [errno] variable; [exit] has no
    return.  [Undefined] stands for an operation to which C gives no
    meaning; nothing can be said of a run that reaches it. *)
Definition ret_ty (c : call) : Type :=
  match c with
  | Stat _ => (Z * stat_t)%type
  | Opendir _ => option Z
  | Readdir _ => option string
  | Exit _ => void
  | Undefined => void
  | _ => Z
  end.

Variant sysE : Type -> Type :=
| Sys (c : call) : sysE (ret_ty c).

Definition sys (c : call) : itree sysE (ret_ty c) := ITree.trigger (Sys c).

Definition stat (path : string) : itree sysE (Z * stat_t) := sys (Stat path).
Definition mkdir (path : string) (mode : Z) : itree sysE Z := sys (Mkdir path mode).
Definition open (path : string) (flags : Z) : itree sysE Z := sys (Open path flags).
Definition chroot (path : string) : itree sysE Z := sys (Chroot path).
Definition geteuid : itree sysE Z := sys Geteuid.
Definition fchdir (fd : Z) : itree sysE Z := sys (Fchdir fd).
Definition close (fd : Z) : itree sysE Z := sys (Close fd).
Definition chdir (path : string) : itree sysE Z := sys (Chdir path).
Definition errno : itree sysE Z := sys Errno.
Definition fflush (s : stream) : itree sysE Z := sys (Fflush s).
Definition fprintf (s : stream) (text : string) : itree sysE Z := sys (Fprintf s text).
Definition printf (text : string) : itree sysE Z := fprintf stdout text.
Definition opendir (path : string) : itree sysE (option Z) := sys (Opendir path).
Definition readdir (dir : Z) : itree sysE (option string) := sys (Readdir dir).
Definition closedir (dir : Z) : itree sysE Z := sys (Closedir dir).
Definition execl (path : string) (args : list string) : itree sysE Z := sys (Execl path args).
Definition exit {R : Type} (status : Z) : itree sysE R :=
  v <- sys (Exit status) ;; match v : void with end.

(** ** The argument vector *)

(** [argv] is the list of its strings; the array behind it has one more
    slot, the terminating NULL.  Reading a slot gives [Some (Some s)] for a
    string, [Some None] for the NULL, and [None] past the end of the array
    (not a defined read). *)
Definition argv_read (argv : list string) (i : nat) : option (option string) :=
  match nth_error argv i with
  | Some s => Some (Some s)
  | None => if Nat.eqb i (List.length argv) then Some None else None
  end.

(** Byte of a string at its head, 0 at the terminator. *)
Definition head_byte (s : string) : Z :=
  match s with
  | EmptyString => 0
  | String c _ => Z.of_nat (nat_of_ascii c)
  end.

(** [strcmp]: difference of the first bytes that differ, comparison stops at
    the terminator. *)
Fixpoint strcmp (a b : string) : Z :=
  match a, b with
  | String c a', String d b' =>
      if (head_byte a =? head_byte b) then
        if head_byte a =? 0 then 0 else strcmp a' b'
      else head_byte a - head_byte b
  | _, _ => head_byte a - head_byte b
  end.

(** The condition of line 179,
    [!argv[0] || !argv[1] || 0 != strcmp(argv[1], "--no-shell")],
    with C's left-to-right short circuit.  [None] would be a read outside the
    array. *)
Definition wants_shell (argv : list string) : option bool :=
  match argv_read argv 0 with
  | None => None
  | Some None => Some true
  | Some (Some _) =>
      match argv_read argv 1 with
      | None => None
      | Some None => Some true
      | Some (Some a1) => Some (negb (0 =? strcmp a1 "--no-shell"))
      end
  end.

(** ** The program *)

Section Program.

(** [strerror] of the C library: the text of an error number. *)
Variable strerror : Z -> string.

(** Lines 68-83: create the temporary directory if it does not exist. *)
Definition ensure_staging : itree sysE unit :=
  r <- stat TEMP_DIR ;;
  if fst r <? 0 then
    e <- errno ;;
    if e =? ENOENT then
      m <- mkdir TEMP_DIR 493 ;;   (* 0755 *)
      if m <? 0 then
        e' <- errno ;;
        fprintf stderr ("Failed to create " ++ TEMP_DIR ++ " - " ++ strerror e' ++ nl) ;;
        exit 1
      else Ret tt
    else
      e' <- errno ;;
      fprintf stderr ("Failed to stat " ++ TEMP_DIR ++ " - " ++ strerror e' ++ nl) ;;
      exit 1
  else if negb (S_ISDIR (st_mode (snd r))) then
    fprintf stderr ("Error - " ++ TEMP_DIR ++ " is not a directory!" ++ nl) ;;
    exit 1
  else Ret tt.

(** Lines 93-97: open the current working directory. *)
Definition open_cwd : itree sysE Z :=
  dir_fd <- open "." O_RDONLY ;;
  if dir_fd <? 0 then
    e <- errno ;;
    fprintf stderr ("Failed to open " ++ dq ++ "." ++ dq ++ " for reading - "
                    ++ strerror e ++ nl) ;;
    exit 1
  else Ret dir_fd.

(** Lines 103-111: chroot to the temporary directory. *)
Definition nest_chroot : itree sysE unit :=
  r <- chroot TEMP_DIR ;;
  if r <? 0 then
    e <- errno ;;
    fprintf stderr ("Failed to chroot to " ++ TEMP_DIR ++ " - " ++ strerror e ++ nl) ;;
    u <- geteuid ;;
    (if negb (u =? 0) then
       fprintf stderr ("Not running as root. Breaking out of chroot works as root." ++ nl) ;;
       Ret tt
     else Ret tt) ;;
    exit 1
  else Ret tt.

(** Lines 126-131: go back to the directory opened before the chroot. *)
Definition restore_cwd (dir_fd : Z) : itree sysE unit :=
  r <- fchdir dir_fd ;;
  if r <? 0 then
    e <- errno ;;
    fprintf stderr ("Failed to fchdir - " ++ strerror e ++ nl) ;;
    exit 1
  else
    close dir_fd ;;
    Ret tt.

(** Lines 146-148: [for(x=0;x<n;x++) chdir("..");], [n] is 1024 in [main].
    The result of [chdir] is dropped. *)
Fixpoint climb (n : nat) : itree sysE unit :=
  match n with
  | O => Ret tt
  | S n' => chdir ".." ;; climb n'
  end.

(** Lines 174-176: [while ((e = readdir(dir))) printf("%s\n", e->d_name);] *)
Definition print_entries (dir : Z) : itree sysE unit :=
  ITree.iter (fun _ : unit =>
    e <- readdir dir ;;
    match e with
    | Some d_name => printf (d_name ++ nl) ;; Ret (inl tt)
    | None => Ret (inr tt)
    end) tt.

(** Lines 166-178: list the root directory. *)
Definition list_root : itree sysE unit :=
  dir <- opendir "/" ;;
  match dir with
  | None =>
      e <- errno ;;
      fprintf stderr ("Failed to opendir /: " ++ strerror e ++ nl) ;;
      exit 1
  | Some d =>
      printf ("dir /:" ++ nl) ;;
      print_entries d ;;
      closedir d ;;
      Ret tt
  end.

(** A read outside the [argv] array. *)
Definition undefined_read {R : Type} : itree sysE R :=
  v <- sys Undefined ;; match v : void with end.

(** Lines 179-186: exec a shell unless asked not to, then [return 0]. *)
Definition handoff (argv : list string) : itree sysE Z :=
  match wants_shell argv with
  | None => undefined_read
  | Some true =>
      fprintf stderr ("Running interactive shell outside chroot." ++ nl) ;;
      r <- execl "/bin/sh" ["-i"] ;;
      if r <? 0 then
        e <- errno ;;
        fprintf stderr ("Failed to exec - " ++ strerror e ++ nl) ;;
        exit 1
      else Ret 0
  | Some false => Ret 0
  end.

(** [main], with the macro [NEED_FCHDIR] as a parameter: the two
    [#ifdef NEED_FCHDIR] blocks are compiled in when it is defined. *)
Definition main_with (need_fchdir : option Z) (argv : list string) : itree sysE Z :=
  r1 <- stat "/" ;;
  (if negb (fst r1 =? 0) then
     e <- errno ;;
     fprintf stderr ("Failed to stat1 /: " ++ strerror e ++ nl) ;;
     exit 1
   else Ret tt) ;;
  let sbuf1 := snd r1 in
  ensure_staging ;;
  dir_fd <- (if ifdef need_fchdir then open_cwd else Ret 0) ;;
  nest_chroot ;;
  (if ifdef need_fchdir then restore_cwd dir_fd else Ret tt) ;;
  climb 1024 ;;
  chroot "." ;;
  fflush stdout ;;
  r2 <- stat "/" ;;
  (if negb (fst r2 =? 0) then
     e <- errno ;;
     fprintf stderr ("Failed to stat2 /: " ++ strerror e ++ nl) ;;
     exit 1
   else Ret tt) ;;
  let sbuf2 := snd r2 in
  (if (st_dev sbuf1 =? st_dev sbuf2) && (st_ino sbuf1 =? st_ino sbuf2) then
     fprintf stderr ("Breaking out of the chroot did not work." ++ nl) ;;
     exit 1
   else Ret tt) ;;
  fprintf stderr ("Broken out of the chroot." ++ nl) ;;
  fflush stderr ;;
  list_root ;;
  handoff argv.

Definition main (argv : list string) : itree sysE Z := main_with NEED_FCHDIR argv.

End Program.

(** ** Running the program against an operating system *)

(** One line of a run's log: a call and what it returned. *)
Definition entry : Type := { c : call & ret_ty c }.
Definition ent (c : call) (x : ret_ty c) : entry := existT ret_ty c x.
Definition e_call (e : entry) : call := projT1 e.

(** An operating system over a state [W]: the state after the call and the
    value returned, [None] when the call does not return to the program
    ([exit], a successful [execl]). *)
Definition os (W : Type) : Type := forall c : call, W -> W * option (ret_ty c).

(** How a run ends: [main] returns, the process ends inside a call, or the
    step budget of [run] is used up. *)
Inductive halt (R : Type) : Type :=
| Returned (r : R)
| Stopped (c : call)
| OutOfFuel.
Arguments Returned {R} r.
Arguments Stopped {R} c.
Arguments OutOfFuel {R}.

Record result (W R : Type) : Type :=
  mk_result { r_halt : halt R; r_world : W; r_trace : list entry; r_fuel : nat }.
Arguments mk_result {W R}.
Arguments r_halt {W R}.
Arguments r_world {W R}.
Arguments r_trace {W R}.
Arguments r_fuel {W R}.

Definition log {W R : Type} (e : entry) (r : result W R) : result W R :=
  mk_result (r_halt r) (r_world r) (e :: r_trace r) (r_fuel r).

(** [run h fuel t w]: at most [fuel] steps of [t] from state [w].  A step is
    a call or a loop back edge.  [r_fuel] is the budget left. *)
Fixpoint run {W R : Type} (h : os W) (fuel : nat) (t : itree sysE R) (w : W)
  : result W R :=
  match fuel with
  | O => mk_result OutOfFuel w [] O
  | S fuel' =>
      match observe t with
      | RetF r => mk_result (Returned r) w [] fuel
      | TauF t' => run h fuel' t' w
      | VisF e k =>
          match e in sysE X return (X -> itree sysE R) -> result W R with
          | Sys c => fun k =>
              match h c w with
              | (w', Some x) => log (ent c x) (run h fuel' (k x) w')
              | (w', None) => mk_result (Stopped c) w' [] fuel'
              end
          end k
      end
  end.

Definition prepend {W R : Type} (tr : list entry) (r : result W R) : result W R :=
  mk_result (r_halt r) (r_world r) (tr ++ r_trace r)%list (r_fuel r).

Definition finished {R : Type} (o : halt R) : bool :=
  match o with OutOfFuel => false | _ => true end.

(** [terminates h t w Q]: from state [w] the run of [t] ends, given enough
    steps, and its log, its ending and its final state satisfy [Q]. *)
Definition terminates {W R : Type} (h : os W) (t : itree sysE R) (w : W)
  (Q : list entry -> halt R -> W -> Prop) : Prop :=
  exists fuel0, forall fuel, (fuel0 <= fuel)%nat ->
    finished (r_halt (run h fuel t w)) = true /\
    Q (r_trace (run h fuel t w)) (r_halt (run h fuel t w)) (r_world (run h fuel t w)).

(** ** Diagnostics *)

Section Messages.
Variable strerror : Z -> string.

Definition msg_stat1 (e : Z) : string := "Failed to stat1 /: " ++ strerror e ++ nl.
Definition msg_create (e : Z) : string :=
  "Failed to create " ++ TEMP_DIR ++ " - " ++ strerror e ++ nl.
Definition msg_stat (e : Z) : string :=
  "Failed to stat " ++ TEMP_DIR ++ " - " ++ strerror e ++ nl.
Definition msg_notdir : string := "Error - " ++ TEMP_DIR ++ " is not a directory!" ++ nl.
Definition msg_open (e : Z) : string :=
  "Failed to open " ++ dq ++ "." ++ dq ++ " for reading - " ++ strerror e ++ nl.
Definition msg_chroot (e : Z) : string :=
  "Failed to chroot to " ++ TEMP_DIR ++ " - " ++ strerror e ++ nl.
Definition msg_hint : string :=
  "Not running as root. Breaking out of chroot works as root." ++ nl.
Definition msg_fchdir (e : Z) : string := "Failed to fchdir - " ++ strerror e ++ nl.
Definition msg_stat2 (e : Z) : string := "Failed to stat2 /: " ++ strerror e ++ nl.
Definition msg_ineffective : string := "Breaking out of the chroot did not work." ++ nl.
Definition msg_broken : string := "Broken out of the chroot." ++ nl.
Definition msg_opendir (e : Z) : string := "Failed to opendir /: " ++ strerror e ++ nl.
Definition msg_dir : string := "dir /:" ++ nl.
Definition msg_shell : string := "Running interactive shell outside chroot." ++ nl.
Definition msg_exec (e : Z) : string := "Failed to exec - " ++ strerror e ++ nl.

(** ** The runs of [main], path by path *)

Definition same_file (a b : stat_t) : bool :=
  (st_dev a =? st_dev b) && (st_ino a =? st_ino b).

(** Runs of [ensure_staging]. *)
Inductive staging_run : list entry -> halt unit -> Prop :=
| staging_present r :
    0 <= fst r -> S_ISDIR (st_mode (snd r)) = true ->
    staging_run [ent (Stat TEMP_DIR) r] (Returned tt)
| staging_created r m :
    fst r < 0 -> 0 <= m ->
    staging_run [ent (Stat TEMP_DIR) r; ent Errno ENOENT; ent (Mkdir TEMP_DIR 493) m]
      (Returned tt)
| staging_mkdir_failed r m e x :
    fst r < 0 -> m < 0 ->
    staging_run [ent (Stat TEMP_DIR) r; ent Errno ENOENT; ent (Mkdir TEMP_DIR 493) m;
                 ent Errno e; ent (Fprintf stderr (msg_create e)) x]
      (Stopped (Exit 1))
| staging_stat_failed r e e' x :
    fst r < 0 -> e <> ENOENT ->
    staging_run [ent (Stat TEMP_DIR) r; ent Errno e; ent Errno e';
                 ent (Fprintf stderr (msg_stat e')) x]
      (Stopped (Exit 1))
| staging_not_dir r x :
    0 <= fst r -> S_ISDIR (st_mode (snd r)) = false ->
    staging_run [ent (Stat TEMP_DIR) r; ent (Fprintf stderr msg_notdir) x]
      (Stopped (Exit 1)).

(** [n] times [chdir("..")], whatever each returned. *)
Inductive climbs : nat -> list entry -> Prop :=
| climbs_O : climbs O []
| climbs_S n x tr : climbs n tr -> climbs (S n) (ent (Chdir "..") x :: tr).

(** The entries of directory stream [d] read and printed so far. *)
Inductive listing (d : Z) : list entry -> Prop :=
| listing_nil : listing d []
| listing_cons name x tr :
    listing d tr ->
    listing d (ent (Readdir d) (Some name) :: ent (Fprintf stdout (name ++ nl)) x :: tr).

(** Logs of the runs that got through a stage, stage by stage. *)
Inductive staged : list entry -> stat_t -> Prop :=
| staged_intro r1 ts :
    fst r1 = 0 -> staging_run ts (Returned tt) ->
    staged (ent (Stat "/") r1 :: ts) (snd r1).

Inductive opened : list entry -> stat_t -> Z -> Prop :=
| opened_intro pfx sbuf1 dir_fd :
    staged pfx sbuf1 -> 0 <= dir_fd ->
    opened (pfx ++ [ent (Open "." O_RDONLY) dir_fd]) sbuf1 dir_fd.

Inductive nested : list entry -> stat_t -> Z -> Prop :=
| nested_intro pfx sbuf1 dir_fd c :
    opened pfx sbuf1 dir_fd -> 0 <= c ->
    nested (pfx ++ [ent (Chroot TEMP_DIR) c]) sbuf1 dir_fd.

Inductive restored : list entry -> stat_t -> Prop :=
| restored_intro pfx sbuf1 dir_fd f cl :
    nested pfx sbuf1 dir_fd -> 0 <= f ->
    restored (pfx ++ [ent (Fchdir dir_fd) f; ent (Close dir_fd) cl]) sbuf1.

Inductive climbed : list entry -> stat_t -> Prop :=
| climbed_intro pfx sbuf1 tc cr fl :
    restored pfx sbuf1 -> climbs 1024 tc ->
    climbed (pfx ++ tc ++ [ent (Chroot ".") cr; ent (Fflush stdout) fl]) sbuf1.

Inductive verified : list entry -> Prop :=
| verified_intro pfx sbuf1 r2 b fl :
    climbed pfx sbuf1 -> fst r2 = 0 -> same_file sbuf1 (snd r2) = false ->
    verified (pfx ++ [ent (Stat "/") r2; ent (Fprintf stderr msg_broken) b;
                      ent (Fflush stderr) fl]).

Inductive listed : list entry -> Prop :=
| listed_intro pfx d p tl cd :
    verified pfx -> listing d tl ->
    listed (pfx ++ [ent (Opendir "/") (Some d); ent (Fprintf stdout msg_dir) p]
                ++ tl ++ [ent (Readdir d) None; ent (Closedir d) cd]).

(** Every way a run of [main argv] can end. *)
Inductive main_run (argv : list string) : list entry -> halt Z -> Prop :=
| fail_stat1 r1 e x :
    fst r1 <> 0 ->
    main_run argv [ent (Stat "/") r1; ent Errno e; ent (Fprintf stderr (msg_stat1 e)) x]
      (Stopped (Exit 1))
| fail_staging r1 ts :
    fst r1 = 0 -> staging_run ts (Stopped (Exit 1)) ->
    main_run argv (ent (Stat "/") r1 :: ts) (Stopped (Exit 1))
| fail_open pfx sbuf1 fd e x :
    staged pfx sbuf1 -> fd < 0 ->
    main_run argv
      (pfx ++ [ent (Open "." O_RDONLY) fd; ent Errno e; ent (Fprintf stderr (msg_open e)) x])
      (Stopped (Exit 1))
| fail_chroot_root pfx sbuf1 dir_fd c e x :
    opened pfx sbuf1 dir_fd -> c < 0 ->
    main_run argv
      (pfx ++ [ent (Chroot TEMP_DIR) c; ent Errno e; ent (Fprintf stderr (msg_chroot e)) x;
               ent Geteuid 0])
      (Stopped (Exit 1))
| fail_chroot_user pfx sbuf1 dir_fd c e x u y :
    opened pfx sbuf1 dir_fd -> c < 0 -> u <> 0 ->
    main_run argv
      (pfx ++ [ent (Chroot TEMP_DIR) c; ent Errno e; ent (Fprintf stderr (msg_chroot e)) x;
               ent Geteuid u; ent (Fprintf stderr msg_hint) y])
      (Stopped (Exit 1))
| fail_fchdir pfx sbuf1 dir_fd f e x :
    nested pfx sbuf1 dir_fd -> f < 0 ->
    main_run argv
      (pfx ++ [ent (Fchdir dir_fd) f; ent Errno e; ent (Fprintf stderr (msg_fchdir e)) x])
      (Stopped (Exit 1))
| fail_stat2 pfx sbuf1 r2 e x :
    climbed pfx sbuf1 -> fst r2 <> 0 ->
    main_run argv
      (pfx ++ [ent (Stat "/") r2; ent Errno e; ent (Fprintf stderr (msg_stat2 e)) x])
      (Stopped (Exit 1))
| fail_same pfx sbuf1 r2 x :
    climbed pfx sbuf1 -> fst r2 = 0 -> same_file sbuf1 (snd r2) = true ->
    main_run argv
      (pfx ++ [ent (Stat "/") r2; ent (Fprintf stderr msg_ineffective) x])
      (Stopped (Exit 1))
| fail_opendir pfx e x :
    verified pfx ->
    main_run argv
      (pfx ++ [ent (Opendir "/") None; ent Errno e; ent (Fprintf stderr (msg_opendir e)) x])
      (Stopped (Exit 1))
| end_no_shell pfx :
    listed pfx -> wants_shell argv = Some false ->
    main_run argv pfx (Returned 0)
| end_shell pfx s :
    listed pfx -> wants_shell argv = Some true ->
    main_run argv (pfx ++ [ent (Fprintf stderr msg_shell) s])
      (Stopped (Execl "/bin/sh" ["-i"]))
| fail_exec pfx s r e x :
    listed pfx -> wants_shell argv = Some true -> r < 0 ->
    main_run argv
      (pfx ++ [ent (Fprintf stderr msg_shell) s; ent (Execl "/bin/sh" ["-i"]) r;
               ent Errno e; ent (Fprintf stderr (msg_exec e)) x])
      (Stopped (Exit 1))
| end_exec_returned pfx s r :
    listed pfx -> wants_shell argv = Some true -> 0 <= r ->
    main_run argv
      (pfx ++ [ent (Fprintf stderr msg_shell) s; ent (Execl "/bin/sh" ["-i"]) r])
      (Returned 0).

End Messages.

(** ** Operating systems that answer *)

(** Calls that come back to the program whenever they are made. *)
Definition returns (c : call) : bool :=
  match c with
  | Exit _ | Undefined | Execl _ _ => false
  | _ => true
  end.

Definition responsive {W} (h : os W) : Prop :=
  forall c w, returns c = true -> snd (h c w) <> None.

(** Reading directory stream [d] from state [w] reaches the end of the
    directory, each name being printed on the way as [print_entries] does. *)
Inductive drains {W} (h : os W) (d : Z) : W -> Prop :=
| drains_end w w1 :
    h (Readdir d) w = (w1, Some None) -> drains h d w
| drains_next w w1 name w2 x :
    h (Readdir d) w = (w1, Some (Some name)) ->
    h (Fprintf stdout (name ++ nl)) w1 = (w2, Some x) ->
    drains h d w2 ->
    drains h d w.

Definition finite_dirs {W} (h : os W) : Prop := forall d w, drains h d w.

(** ** A model of the kernel

    The per-process state the program manipulates, as the comments of
    [chbreak.c] (lines 113-145) describe it: a root directory and a working
    directory that are independent of each other, [".."] that stays in place
    at the process's root and at the real root, [chroot] that moves the root
    only and needs the super-user.  Directories are named by their real
    path, the list of components below the real root. *)

Definition path : Type := list string.

Record node : Type := mk_node { n_dev : Z; n_ino : Z; n_mode : Z }.

Record kstate : Type := mk_kstate {
  k_fs : list (path * node);          (* files by real path, first match wins *)
  k_root : path;                      (* what the process sees as "/" *)
  k_cwd : path;                       (* working directory *)
  k_euid : Z;
  k_errno : Z;
  k_fds : list (Z * path);            (* open descriptors *)
  k_dirs : list (Z * list string);    (* open directory streams, names left *)
  k_next : Z;                         (* next descriptor, stream or inode number *)
  k_buffer : string;                  (* stdout text not yet written out *)
  k_output : list (stream * string)   (* text written out, oldest first *)
}.

Definition path_eqb (p q : path) : bool :=
  if list_eq_dec string_dec p q then true else false.

Fixpoint lookup {A} (fs : list (path * A)) (p : path) : option A :=
  match fs with
  | [] => None
  | (q, a) :: fs' => if path_eqb q p then Some a else lookup fs' p
  end.

Fixpoint zlookup {A} (l : list (Z * A)) (i : Z) : option A :=
  match l with
  | [] => None
  | (j, a) :: l' => if j =? i then Some a else zlookup l' i
  end.

Fixpoint zremove {A} (l : list (Z * A)) (i : Z) : list (Z * A) :=
  match l with
  | [] => []
  | (j, a) :: l' => if j =? i then zremove l' i else (j, a) :: zremove l' i
  end.

Definition is_dir (n : node) : bool := S_ISDIR (n_mode n).

Definition dir_at (k : kstate) (p : path) : bool :=
  match lookup (k_fs k) p with
  | Some n => is_dir n
  | None => false
  end.

(** Components of a path name, split at ['/']. *)
Fixpoint split_slash (s : string) : list string :=
  match s with
  | EmptyString => [EmptyString]
  | String c s' =>
      if Ascii.eqb c "/"%char then EmptyString :: split_slash s'
      else match split_slash s' with
           | [] => [String c EmptyString]
           | x :: xs => String c x :: xs
           end
  end.

Definition absolute (s : string) : bool :=
  match s with
  | String c _ => Ascii.eqb c "/"%char
  | EmptyString => false
  end.

(** Modelled from the spec: the kernel's treatment of [".."] is not code
    of the repository.  Section 4.1, step 6 has moving to the parent of the
    real root be a no-op, and so does the comment of lines 134-145 of
    [chbreak.c]; the confinement boundary of section 3 restricts path
    resolution, so [".."] goes nowhere at the process's root either.
    Elsewhere it is the parent. *)
Definition dotdot (k : kstate) (p : path) : path :=
  if path_eqb p (k_root k) then p else removelast p.

(** Path resolution: each component is looked up in a directory. *)
Fixpoint walk (k : kstate) (cur : path) (comps : list string) : Z + path :=
  match comps with
  | [] => inr cur
  | c :: rest =>
      match lookup (k_fs k) cur with
      | None => inl ENOENT
      | Some n =>
          if negb (is_dir n) then inl ENOTDIR
          else if String.eqb c "" || String.eqb c "." then walk k cur rest
          else if String.eqb c ".." then walk k (dotdot k cur) rest
          else match lookup (k_fs k) (cur ++ [c])%list with
               | None => inl ENOENT
               | Some _ => walk k (cur ++ [c])%list rest
               end
      end
  end.

Definition start_dir (k : kstate) (s : string) : path :=
  if absolute s then k_root k else k_cwd k.

Definition resolve (k : kstate) (s : string) : Z + (path * node) :=
  if String.eqb s "" then inl ENOENT
  else match walk k (start_dir k s) (split_slash s) with
       | inl e => inl e
       | inr p => match lookup (k_fs k) p with
                  | Some n => inr (p, n)
                  | None => inl ENOENT
                  end
       end.

Definition set_errno (k : kstate) (e : Z) : kstate :=
  mk_kstate (k_fs k) (k_root k) (k_cwd k) (k_euid k) e (k_fds k) (k_dirs k)
    (k_next k) (k_buffer k) (k_output k).
Definition set_root (k : kstate) (p : path) : kstate :=
  mk_kstate (k_fs k) p (k_cwd k) (k_euid k) (k_errno k) (k_fds k) (k_dirs k)
    (k_next k) (k_buffer k) (k_output k).
Definition set_cwd (k : kstate) (p : path) : kstate :=
  mk_kstate (k_fs k) (k_root k) p (k_euid k) (k_errno k) (k_fds k) (k_dirs k)
    (k_next k) (k_buffer k) (k_output k).
Definition set_fs (k : kstate) (fs : list (path * node)) : kstate :=
  mk_kstate fs (k_root k) (k_cwd k) (k_euid k) (k_errno k) (k_fds k) (k_dirs k)
    (k_next k + 1) (k_buffer k) (k_output k).
Definition set_fds (k : kstate) (fds : list (Z * path)) (next : Z) : kstate :=
  mk_kstate (k_fs k) (k_root k) (k_cwd k) (k_euid k) (k_errno k) fds (k_dirs k)
    next (k_buffer k) (k_output k).
Definition set_dirs (k : kstate) (dirs : list (Z * list string)) (next : Z) : kstate :=
  mk_kstate (k_fs k) (k_root k) (k_cwd k) (k_euid k) (k_errno k) (k_fds k) dirs
    next (k_buffer k) (k_output k).
Definition set_stdio (k : kstate) (buf : string) (out : list (stream * string)) : kstate :=
  mk_kstate (k_fs k) (k_root k) (k_cwd k) (k_euid k) (k_errno k) (k_fds k) (k_dirs k)
    (k_next k) buf out.

Definition stat_of (n : node) : stat_t := mk_stat (n_dev n) (n_ino n) (n_mode n).
Definition no_stat : stat_t := mk_stat 0 0 0.

(** Names in directory [dir]: the files whose path is [dir] plus one name. *)
Fixpoint children (fs : list (path * node)) (dir : path) : list string :=
  match fs with
  | [] => []
  | (p, _) :: fs' =>
      match p with
      | [] => children fs' dir
      | _ => if path_eqb (removelast p) dir
             then last p EmptyString :: children fs' dir
             else children fs' dir
      end
  end.

(** Writing out what stdio holds for stdout. *)
Definition flushed (k : kstate) : kstate :=
  if String.eqb (k_buffer k) "" then k
  else set_stdio k "" (k_output k ++ [(stdout, k_buffer k)])%list.

Definition fail {A} (k : kstate) (e : Z) (a : A) : kstate * option A :=
  (set_errno k e, Some a).

(** Modelled from the spec: the kernel and the C library are outside the
    repository.  The root and the working directory are the two independent
    attributes of section 3; [chroot] moves the root only and is denied
    without the privilege (section 4.1).  [stdout] is fully buffered, as it
    is when it is not a terminal, [stderr] is not buffered.  [exit] writes
    the buffer out; a successful [execl] replaces the process image, buffer
    included. *)
Definition kernel : os kstate := fun c =>
  match c as c0 return kstate -> kstate * option (ret_ty c0) with
  | Stat p => fun k =>
      match resolve k p with
      | inl e => fail k e (-1, no_stat)
      | inr (_, n) => (k, Some (0, stat_of n))
      end
  | Mkdir p mode => fun k =>
      match resolve k p with
      | inr _ => fail k EEXIST (-1)
      | inl _ =>
          let comps := split_slash p in
          match walk k (start_dir k p) (removelast comps) with
          | inl e => fail k e (-1)
          | inr dir =>
              match lookup (k_fs k) dir with
              | None => fail k ENOENT (-1)
              | Some d =>
                  if negb (is_dir d) then fail k ENOTDIR (-1)
                  else
                    let n := mk_node (n_dev d) (k_next k) (Z.lor S_IFDIR mode) in
                    (set_fs k ((dir ++ [last comps EmptyString], n) :: k_fs k)%list, Some 0)
              end
          end
      end
  | Open p _ => fun k =>
      match resolve k p with
      | inl e => fail k e (-1)
      | inr (q, _) => (set_fds k ((k_next k, q) :: k_fds k) (k_next k + 1), Some (k_next k))
      end
  | Chroot p => fun k =>
      if negb (k_euid k =? 0) then fail k EPERM (-1)
      else match resolve k p with
           | inl e => fail k e (-1)
           | inr (q, n) => if is_dir n then (set_root k q, Some 0) else fail k ENOTDIR (-1)
           end
  | Geteuid => fun k => (k, Some (k_euid k))
  | Fchdir fd => fun k =>
      match zlookup (k_fds k) fd with
      | None => fail k EBADF (-1)
      | Some q => if dir_at k q then (set_cwd k q, Some 0) else fail k ENOTDIR (-1)
      end
  | Close fd => fun k =>
      match zlookup (k_fds k) fd with
      | None => fail k EBADF (-1)
      | Some _ => (set_fds k (zremove (k_fds k) fd) (k_next k), Some 0)
      end
  | Chdir p => fun k =>
      match resolve k p with
      | inl e => fail k e (-1)
      | inr (q, n) => if is_dir n then (set_cwd k q, Some 0) else fail k ENOTDIR (-1)
      end
  | Errno => fun k => (k, Some (k_errno k))
  | Fflush s => fun k =>
      match s with
      | stdout => (flushed k, Some 0)
      | stderr => (k, Some 0)
      end
  | Fprintf s text => fun k =>
      match s with
      | stdout => (set_stdio k (k_buffer k ++ text) (k_output k),
                   Some (Z.of_nat (String.length text)))
      | stderr => (set_stdio k (k_buffer k) (k_output k ++ [(stderr, text)])%list,
                   Some (Z.of_nat (String.length text)))
      end
  | Opendir p => fun k =>
      match resolve k p with
      | inl e => fail k e None
      | inr (q, n) =>
          if is_dir n
          then (set_dirs k ((k_next k, "." :: ".." :: children (k_fs k) q) :: k_dirs k)
                  (k_next k + 1), Some (Some (k_next k)))
          else fail k ENOTDIR None
      end
  | Readdir d => fun k =>
      match zlookup (k_dirs k) d with
      | Some (name :: rest) =>
          (set_dirs k ((d, rest) :: zremove (k_dirs k) d) (k_next k), Some (Some name))
      | Some [] => (k, Some None)
      | None => fail k EBADF None
      end
  | Closedir d => fun k =>
      match zlookup (k_dirs k) d with
      | Some _ => (set_dirs k (zremove (k_dirs k) d) (k_next k), Some 0)
      | None => fail k EBADF (-1)
      end
  | Execl p _ => fun k =>
      match resolve k p with
      | inl e => fail k e (-1)
      | inr (_, n) =>
          if is_dir n then fail k 13 (-1)   (* EACCES *)
          else (set_stdio k "" (k_output k), None)
      end
  | Exit _ => fun k => (flushed k, None)
  | Undefined => fun k => (k, None)
  end.


(** ** Vocabulary of the properties *)

(** A call whose result the program tests, coming back with a failure.
    [stat] of the temporary directory failing with [ENOENT] is the expected
    answer for a directory that is yet to be created, so it counts only
    with another error number, which the entry after it in the log shows. *)
Definition failed_check (e : entry) (post : list entry) : Prop :=
  match e with
  | existT _ c x =>
      match c return ret_ty c -> Prop with
      | Stat p => fun r =>
          if String.eqb p "/" then fst r <> 0
          else fst r < 0 /\ exists en rest, post = ent Errno en :: rest /\ en <> ENOENT
      | Mkdir _ _ => fun m => m < 0
      | Open _ _ => fun fd => fd < 0
      | Chroot p => fun r => p = TEMP_DIR /\ r < 0
      | Fchdir _ => fun r => r < 0
      | Opendir _ => fun d => d = None
      | Execl _ _ => fun r => r < 0
      | _ => fun _ => False
      end x
  end.

(** What the program does on its way out after a failure: it reads [errno],
    asks for the effective user id and writes to [stderr]. *)
Definition diagnostic (e : entry) : Prop :=
  match e_call e with
  | Errno | Geteuid | Fprintf stderr _ => True
  | _ => False
  end.

(** Number of [chdir("..")] calls in a log. *)
Definition is_climb (e : entry) : bool :=
  match e_call e with
  | Chdir p => String.eqb p ".."
  | _ => false
  end.
Definition climb_count (tr : list entry) : nat := List.length (filter is_climb tr).


(** A call that succeeded, by the manual of each call.  [execl] returns
    only when it failed. *)
Definition call_ok (e : entry) : Prop :=
  match e with
  | existT _ c x =>
      match c return ret_ty c -> Prop with
      | Stat _ => fun r => fst r = 0
      | Open _ _ => fun fd => 0 <= fd
      | Fprintf _ _ => fun n => 0 <= n
      | Opendir _ => fun d => d <> None
      | Readdir _ => fun _ => True
      | Geteuid => fun _ => True
      | Errno => fun _ => True
      | Execl _ _ => fun _ => False
      | Exit _ => fun _ => True
      | Undefined => fun _ => True
      | _ => fun r => r = 0
      end x
  end.

(** The [struct stat] values that the calls [stat("/")] of a log filled in,
    in order. *)
Definition root_stat (e : entry) : list stat_t :=
  match e with
  | existT _ c x =>
      match c return ret_ty c -> list stat_t with
      | Stat p => fun r => if String.eqb p "/" then [snd r] else []
      | _ => fun _ => []
      end x
  end.
Definition root_stats (tr : list entry) : list stat_t := flat_map root_stat tr.

(** The texts written to [stderr], in order. *)
Definition stderr_line (e : entry) : list string :=
  match e_call e with
  | Fprintf stderr text => [text]
  | _ => []
  end.
Definition stderr_text (tr : list entry) : list string := flat_map stderr_line tr.

(** The messages that report the failure of a call, with the text of its
    error number. *)
Definition failure_texts (strerror : Z -> string) (e : Z) : list string :=
  [msg_stat1 strerror e; msg_create strerror e; msg_stat strerror e;
   msg_open strerror e; msg_chroot strerror e; msg_fchdir strerror e;
   msg_stat2 strerror e; msg_opendir strerror e; msg_exec strerror e].


(** The first positional argument, [argv[1]]. *)
Definition first_arg (argv : list string) : option string := nth_error argv 1.

(** A C string has no NUL byte before its end. *)
Fixpoint nul_free (s : string) : bool :=
  match s with
  | EmptyString => true
  | String c s' => negb (Ascii.eqb c Ascii.zero) && nul_free s'
  end.

Definition is_exec (e : entry) : Prop :=
  match e_call e with
  | Execl _ _ => True
  | _ => False
  end.



Definition is_flush (e : entry) : Prop :=
  match e_call e with
  | Fflush _ => True
  | _ => False
  end.

(** Calls that change the file system or the process's root and working
    directory. *)
Definition changes_state (e : entry) : Prop :=
  match e_call e with
  | Mkdir _ _ | Chroot _ | Chdir _ | Fchdir _ => True
  | _ => False
  end.


(** [chdir("..")] as a function on states, and [n] of them in a row. *)
Definition chdir_up (k : kstate) : kstate := fst (kernel (Chdir "..") k).

Fixpoint climb_state (n : nat) (k : kstate) : kstate :=
  match n with
  | O => k
  | S n' => climb_state n' (chdir_up k)
  end.

(** Where [".."] leads from directory [p], when it leads anywhere. *)
Definition up_path (k : kstate) (p : path) : path :=
  match lookup (k_fs k) p with
  | Some n =>
      if is_dir n then
        match lookup (k_fs k) (dotdot k p) with
        | Some n' => if is_dir n' then dotdot k p else p
        | None => p
        end
      else p
  | None => p
  end.

Fixpoint iter_up (k : kstate) (n : nat) (p : path) : path :=
  match n with
  | O => p
  | S n' => iter_up k n' (up_path k p)
  end.

(** The real path of the temporary directory. *)
Definition staging_path (k : kstate) : path := (k_cwd k ++ [TEMP_DIR])%list.


(** ** Concrete machines *)

(** Error texts of the C library. *)
Definition c_strerror (e : Z) : string :=
  if e =? EPERM then "Operation not permitted"
  else if e =? ENOENT then "No such file or directory"
  else if e =? ENOTDIR then "Not a directory"
  else if e =? 24 then "Too many open files"
  else "Unknown error".

Definition dir_node (ino : Z) : node := mk_node 1 ino (Z.lor S_IFDIR 493).
Definition file_node (ino : Z) : node := mk_node 1 ino (Z.lor S_IFREG 420).

(** A machine with [/bin/sh], [/etc] and a jail in [/jail]. *)
Definition machine_fs : list (path * node) :=
  [([], dir_node 2); (["bin"], dir_node 3); (["bin"; "sh"], file_node 4);
   (["etc"], dir_node 5); (["jail"], dir_node 10)].

Definition boot (fs : list (path * node)) (root : path) (euid : Z) : kstate :=
  mk_kstate fs root root euid 0 [] [] 100 "" [].

(** Root, confined to [/jail]. *)
Definition jailed_root : kstate := boot machine_fs ["jail"] 0.
(** An ordinary user, confined to [/jail]. *)
Definition jailed_user : kstate := boot machine_fs ["jail"] 1000.
(** Root in [/jail], where [waterbuffalo] is already a directory. *)
Definition jailed_prepared : kstate :=
  boot ((["jail"; "waterbuffalo"], dir_node 11) :: machine_fs) ["jail"] 0.
(** Root, not confined, with [/waterbuffalo] already there. *)
Definition not_jailed : kstate :=
  boot ((["waterbuffalo"], dir_node 11) :: machine_fs) [] 0.

(** An operating system that follows a script: its state counts the calls
    made so far and the answer may depend on the count. *)
Definition scripted (answer : nat -> forall c : call, option (ret_ty c)) : os nat :=
  fun c n => (S n, answer n c).

(** Every call succeeds; ["/"] has inode 10 at first and inode 2 later on;
    the root directory lists as empty. *)
Definition fine (n : nat) (c : call) : option (ret_ty c) :=
  match c as c0 return option (ret_ty c0) with
  | Stat _ => Some (0, mk_stat 1 (if (n <? 5)%nat then 10 else 2) (Z.lor S_IFDIR 493))
  | Opendir _ => Some (Some 3)
  | Readdir _ => Some None
  | Execl _ _ => None
  | Exit _ => None
  | Undefined => None
  | Mkdir _ _ => Some 0
  | Open _ _ => Some 3
  | Chroot _ => Some 0
  | Geteuid => Some 0
  | Fchdir _ => Some 0
  | Close _ => Some 0
  | Chdir _ => Some 0
  | Errno => Some 0
  | Fflush _ => Some 0
  | Fprintf _ _ => Some 0
  | Closedir _ => Some 0
  end.

(** As [fine], but [chdir] and [chroot(".")] fail, and ["/"] is, after the
    first chroot, the temporary directory (inode 11). *)
Definition climb_refused : os nat :=
  scripted (fun n c =>
    match c as c0 return option (ret_ty c0) with
    | Chdir _ => Some (-1)
    | Chroot p => if String.eqb p "." then Some (-1) else Some 0
    | Stat _ => Some (0, mk_stat 1 (if (n <? 5)%nat then 10 else 11) (Z.lor S_IFDIR 493))
    | Errno => Some 13
    | c0 => fine n c0
    end).

(** As [fine], but [opendir] fails with [EMFILE]. *)
Definition opendir_refused : os nat :=
  scripted (fun n c =>
    match c as c0 return option (ret_ty c0) with
    | Opendir _ => Some None
    | Errno => Some 24
    | c0 => fine n c0
    end).

(** As [fine], but [execl] fails with [ENOENT]. *)
Definition exec_refused : os nat :=
  scripted (fun n c =>
    match c as c0 return option (ret_ty c0) with
    | Execl _ _ => Some (-1)
    | Errno => Some ENOENT
    | c0 => fine n c0
    end).

(** As [fine], but [open] fails with [EMFILE]. *)
Definition open_refused : os nat :=
  scripted (fun n c =>
    match c as c0 return option (ret_ty c0) with
    | Open _ _ => Some (-1)
    | Errno => Some 24
    | c0 => fine n c0
    end).

(** The texts written to [stdout], in order. *)
Definition stdout_line (e : entry) : list string :=
  match e_call e with
  | Fprintf stdout text => [text]
  | _ => []
  end.
Definition stdout_text (tr : list entry) : list string := flat_map stdout_line tr.


(** The calls of the listing loop. *)
Definition listing_call (c : call) : bool :=
  match c with
  | Readdir _ | Fprintf stdout _ => true
  | _ => false
  end.


(** [call_ok] as a test. *)
Definition call_okb (e : entry) : bool :=
  match e with
  | existT _ c x =>
      match c return ret_ty c -> bool with
      | Stat _ => fun r => fst r =? 0
      | Open _ _ => fun fd => 0 <=? fd
      | Fprintf _ _ => fun n => 0 <=? n
      | Opendir _ => fun d => match d with Some _ => true | None => false end
      | Readdir _ => fun _ => true
      | Geteuid => fun _ => true
      | Errno => fun _ => true
      | Execl _ _ => fun _ => false
      | Exit _ => fun _ => true
      | Undefined => fun _ => true
      | Mkdir _ _ => fun r => r =? 0
      | Chroot _ => fun r => r =? 0
      | Fchdir _ => fun r => r =? 0
      | Close _ => fun r => r =? 0
      | Chdir _ => fun r => r =? 0
      | Fflush _ => fun r => r =? 0
      | Closedir _ => fun r => r =? 0
      end x
  end.


(** Root in [/jail] right after the chroot to [/jail/waterbuffalo]. *)
Definition nested_state : kstate :=
  mk_kstate ((["jail"; "waterbuffalo"], dir_node 11) :: machine_fs)
    ["jail"; "waterbuffalo"] ["jail"] 0 0 [] [] 100 "" [].

(** The run of [main] on the kernel model, with steps to spare for the
    machines above. *)
Definition kernel_run (argv : list string) (k : kstate) : result kstate Z :=
  run kernel 1100 (main c_strerror argv) k.


(** ** Vocabulary of further properties *)

(** Everything [stderr] can hold when the program has exited with status 1,
    [e] being the error number it read last. *)
Definition exit_reports (strerror : Z -> string) (e : Z) : list (list string) :=
  [[msg_stat1 strerror e]; [msg_create strerror e]; [msg_stat strerror e]; [msg_notdir];
   [msg_open strerror e]; [msg_chroot strerror e]; [msg_chroot strerror e; msg_hint];
   [msg_fchdir strerror e]; [msg_stat2 strerror e]; [msg_ineffective];
   [msg_broken; msg_opendir strerror e];
   [msg_broken; msg_shell; msg_exec strerror e]].

(** A call coming back with what the program takes for a failure: the tests
    of lines 60 and 152 ([!= 0]), 68, 70, 93, 103, 126 and 181 ([< 0]) and
    169 ([!dir]). *)
Definition came_back_failed (e : entry) : bool :=
  match e with
  | existT _ c x =>
      match c return ret_ty c -> bool with
      | Stat p => fun r => if String.eqb p "/" then negb (fst r =? 0) else fst r <? 0
      | Mkdir _ _ => fun m => m <? 0
      | Open _ _ => fun fd => fd <? 0
      | Chroot p => fun r => String.eqb p TEMP_DIR && (r <? 0)
      | Fchdir _ => fun r => r <? 0
      | Opendir _ => fun d => match d with None => true | Some _ => false end
      | Execl _ _ => fun r => r <? 0
      | _ => fun _ => false
      end x
  end.

(** What the program does with an error number [e] it has just read, seen
    on the next entry of the log: it prints one of the failure messages
    with the text of [e], or, after [stat] of the temporary directory, goes
    on to [mkdir] when [e] is [ENOENT] and reads [errno] again when not. *)
Definition uses_errno (strerror : Z -> string) (e : Z) (next : entry) : Prop :=
  match e_call next with
  | Fprintf stderr text => In text (failure_texts strerror e)
  | Mkdir _ _ => e = ENOENT
  | Errno => e <> ENOENT
  | _ => False
  end.

(** The names that [readdir] returned, in order. *)
Definition readdir_name (e : entry) : list string :=
  match e with
  | existT _ c x =>
      match c return ret_ty c -> list string with
      | Readdir _ => fun r => match r with Some name => [name] | None => [] end
      | _ => fun _ => []
      end x
  end.
Definition readdir_names (tr : list entry) : list string := flat_map readdir_name tr.


(** The calls that [main] is written to make, with their arguments. *)
Definition expected_call (c : call) : bool :=
  match c with
  | Stat p => String.eqb p "/" || String.eqb p TEMP_DIR
  | Mkdir p mode => String.eqb p TEMP_DIR && (mode =? 493)
  | Open p flags => String.eqb p "." && (flags =? O_RDONLY)
  | Chroot p => String.eqb p TEMP_DIR || String.eqb p "."
  | Chdir p => String.eqb p ".."
  | Opendir p => String.eqb p "/"
  | Execl p args =>
      String.eqb p "/bin/sh" && if list_eq_dec string_dec args ["-i"] then true else false
  | Exit status => status =? 1
  | Undefined => false
  | _ => true
  end.

(** Calls that change the file system, the root or the working directory. *)
Definition moves (c : call) : bool :=
  match c with
  | Mkdir _ _ | Chroot _ | Chdir _ | Fchdir _ => true
  | _ => false
  end.

(** The same files, root and working directory in two states. *)
Definition same_place (k k' : kstate) : Prop :=
  k_fs k' = k_fs k /\ k_root k' = k_root k /\ k_cwd k' = k_cwd k.

(** Directory [p] and all the directories above it exist. *)
Definition chain (k : kstate) (p : path) : Prop :=
  forall m, dir_at k (firstn m p) = true.

(** Where 1024 times [".."] lead from the working directory when nothing
    stops them: the real root, or the ancestor 1024 levels up when the
    working directory is deeper than that. *)
Definition climbed_to (k : kstate) : path :=
  firstn (List.length (k_cwd k) - 1024) (k_cwd k).

(** A call that takes or uses a file descriptor. *)
Definition descriptor_call (e : entry) : Prop :=
  match e_call e with
  | Open _ _ | Fchdir _ | Close _ => True
  | _ => False
  end.

(** As [fine], but the directory never comes to an end: [readdir] has the
    name ["x"] every time. *)
Definition endless_dir : os nat :=
  scripted (fun n c =>
    match c as c0 return option (ret_ty c0) with
    | Readdir _ => Some (Some "x")
    | c0 => fine n c0
    end).


(** * Properties *)

(** ** Facts about [run] *)

Section RunFacts.
Context {W : Type} (h : os W).

Lemma observe_bind {A B} (t : itree sysE A) (k : A -> itree sysE B) :
  observe (ITree.bind t k) =
  match observe t with
  | RetF r => observe (k r)
  | TauF t' => TauF (ITree.bind t' k)
  | VisF e h => VisF e (fun x => ITree.bind (h x) k)
  end.
Proof.
  unfold ITree.bind, ITree.subst. unfold observe at 1. cbn.
  destruct (observe t); reflexivity.
Qed.

Lemma observe_iter {R I} (body : I -> itree sysE (I + R)) (i : I) :
  observe (ITree.iter body i) =
  observe (ITree.bind (body i)
             (fun lr => match lr with
                        | inl l => Tau (ITree.iter body l)
                        | inr r => Ret r
                        end)).
Proof. reflexivity. Qed.

Lemma run_observe {R} (t1 t2 : itree sysE R) fuel w :
  observe t1 = observe t2 -> run h fuel t1 w = run h fuel t2 w.
Proof. intros E. destruct fuel; cbn; [reflexivity|]. rewrite E. reflexivity. Qed.

Lemma run_bind {A B} (t : itree sysE A) (k : A -> itree sysE B) fuel w :
  run h fuel (ITree.bind t k) w =
  match r_halt (run h fuel t w) with
  | Returned a =>
      prepend (r_trace (run h fuel t w))
        (run h (r_fuel (run h fuel t w)) (k a) (r_world (run h fuel t w)))
  | Stopped c =>
      mk_result (Stopped c) (r_world (run h fuel t w)) (r_trace (run h fuel t w))
        (r_fuel (run h fuel t w))
  | OutOfFuel =>
      mk_result OutOfFuel (r_world (run h fuel t w)) (r_trace (run h fuel t w))
        (r_fuel (run h fuel t w))
  end.
Proof.
  revert t w. induction fuel as [|fuel IH]; intros t w; [reflexivity|].
  cbn [run]. rewrite observe_bind.
  destruct (observe t) as [r|t'|X e k'] eqn:Ht.
  - cbn. unfold prepend. cbn.
    destruct (observe (k r)) as [r'|t''|X e k'']; cbn; try reflexivity.
    + destruct (run h fuel t'' w); reflexivity.
    + destruct e. destruct (h c w) as [w' [x|]]; cbn; [|reflexivity].
      destruct (run h fuel (k'' x) w'); reflexivity.
  - cbn. apply IH.
  - destruct e. cbn. destruct (h c w) as [w' [x|]]; cbn; [|reflexivity].
    rewrite IH. destruct (r_halt (run h fuel (k' x) w')); reflexivity.
Qed.

Lemma run_sys {R} (c : call) (k : ret_ty c -> itree sysE R) fuel w :
  run h (S fuel) (ITree.bind (sys c) k) w =
  match h c w with
  | (w', Some x) => log (ent c x) (run h fuel (k x) w')
  | (w', None) => mk_result (Stopped c) w' [] fuel
  end.
Proof.
  cbn. destruct (h c w) as [w' [x|]]; [|reflexivity].
  f_equal. destruct fuel; reflexivity.
Qed.

Lemma run_more {R} (t : itree sysE R) fuel w n :
  finished (r_halt (run h fuel t w)) = true ->
  run h (fuel + n) t w =
  mk_result (r_halt (run h fuel t w)) (r_world (run h fuel t w))
    (r_trace (run h fuel t w)) (r_fuel (run h fuel t w) + n).
Proof.
  revert t w. induction fuel as [|fuel IH]; intros t w; cbn; [discriminate|].
  destruct (observe t) as [r|t'|X e k]; cbn.
  - reflexivity.
  - apply IH.
  - destruct e. destruct (h c w) as [w' [x|]]; cbn; [|reflexivity].
    intros Hf. rewrite IH by exact Hf. reflexivity.
Qed.
Lemma terminates_intro {R} (t : itree sysE R) w (Q : list entry -> halt R -> W -> Prop) fuel :
  finished (r_halt (run h fuel t w)) = true ->
  Q (r_trace (run h fuel t w)) (r_halt (run h fuel t w)) (r_world (run h fuel t w)) ->
  terminates h t w Q.
Proof.
  intros Hf HQ. exists fuel. intros fuel' Hle.
  replace fuel' with (fuel + (fuel' - fuel))%nat by lia.
  rewrite run_more by exact Hf. cbn. auto.
Qed.

Lemma terminates_elim {R} (t : itree sysE R) w (Q : list entry -> halt R -> W -> Prop) :
  terminates h t w Q ->
  exists fuel, finished (r_halt (run h fuel t w)) = true /\
    Q (r_trace (run h fuel t w)) (r_halt (run h fuel t w)) (r_world (run h fuel t w)).
Proof. intros [fuel0 H]. exists fuel0. apply H. lia. Qed.

Lemma terminates_conseq {R} (t : itree sysE R) w (Q Q' : list entry -> halt R -> W -> Prop) :
  terminates h t w Q -> (forall tr o w', Q tr o w' -> Q' tr o w') -> terminates h t w Q'.
Proof.
  intros [fuel0 H] HQ. exists fuel0. intros fuel Hle.
  destruct (H fuel Hle) as [Hf Hq]. auto.
Qed.


Lemma terminates_ret {R} (r : R) w (Q : list entry -> halt R -> W -> Prop) :
  Q [] (Returned r) w -> terminates h (Ret r) w Q.
Proof. intros HQ. apply (terminates_intro _ _ _ 1%nat); cbn; auto. Qed.

Lemma terminates_tau {R} (t : itree sysE R) w (Q : list entry -> halt R -> W -> Prop) :
  terminates h t w Q -> terminates h (Tau t) w Q.
Proof.
  intros H. apply terminates_elim in H. destruct H as (fuel & Hf & HQ).
  apply (terminates_intro _ _ _ (S fuel)); cbn; auto.
Qed.

Lemma terminates_observe {R} (t1 t2 : itree sysE R) w (Q : list entry -> halt R -> W -> Prop) :
  observe t1 = observe t2 -> terminates h t2 w Q -> terminates h t1 w Q.
Proof.
  intros E [fuel0 H]. exists fuel0. intros fuel Hle.
  rewrite (run_observe t1 t2) by exact E. auto.
Qed.

Lemma terminates_bind {A B} (t : itree sysE A) (k : A -> itree sysE B) w
  (Q : list entry -> halt B -> W -> Prop) :
  terminates h t w (fun tr1 o1 w1 =>
    match o1 with
    | Returned a => terminates h (k a) w1 (fun tr2 o w' => Q (tr1 ++ tr2)%list o w')
    | Stopped c => Q tr1 (Stopped c) w1
    | OutOfFuel => False
    end) ->
  terminates h (ITree.bind t k) w Q.
Proof.
  intros H. apply terminates_elim in H. destruct H as (f1 & Hf1 & H1).
  destruct (r_halt (run h f1 t w)) as [a|c|] eqn:Ho; try contradiction.
  - apply terminates_elim in H1. destruct H1 as (f2 & Hf2 & H2).
    apply (terminates_intro _ _ _ (f1 + f2)%nat).
    + rewrite run_bind, run_more by (rewrite Ho; reflexivity).
      cbn. rewrite Ho. cbn.
      pose proof (run_more (k a) f2 (r_world (run h f1 t w)) (r_fuel (run h f1 t w)) Hf2) as E.
      rewrite Nat.add_comm in E. rewrite E. cbn. exact Hf2.
    + rewrite run_bind, run_more by (rewrite Ho; reflexivity).
      cbn. rewrite Ho. cbn.
      pose proof (run_more (k a) f2 (r_world (run h f1 t w)) (r_fuel (run h f1 t w)) Hf2) as E.
      rewrite Nat.add_comm in E. rewrite E. cbn. exact H2.
  - apply (terminates_intro _ _ _ f1); rewrite run_bind, Ho; cbn; auto.
Qed.

Lemma terminates_call {R} (c : call) (k : ret_ty c -> itree sysE R) w
  (Q : list entry -> halt R -> W -> Prop) :
  (forall w1 x, h c w = (w1, Some x) ->
     terminates h (k x) w1 (fun tr o w' => Q (ent c x :: tr) o w')) ->
  (forall w1, h c w = (w1, None) -> Q [] (Stopped c) w1) ->
  terminates h (ITree.bind (sys c) k) w Q.
Proof.
  intros Hsome Hnone. destruct (h c w) as [w1 [x|]] eqn:E.
  - specialize (Hsome w1 x eq_refl). apply terminates_elim in Hsome.
    destruct Hsome as (fuel & Hf & HQ).
    apply (terminates_intro _ _ _ (S fuel)); rewrite run_sys, E; cbn; assumption.
  - apply (terminates_intro _ _ _ 1%nat); rewrite run_sys, E; cbn; auto.
Qed.

(** Every run of [t] that ends, with whatever budget, is the one
    [terminates] speaks of. *)
Lemma terminates_run {R} (t : itree sysE R) w (Q : list entry -> halt R -> W -> Prop) fuel :
  terminates h t w Q ->
  finished (r_halt (run h fuel t w)) = true ->
  Q (r_trace (run h fuel t w)) (r_halt (run h fuel t w)) (r_world (run h fuel t w)).
Proof.
  intros [fuel0 H] Hf.
  destruct (H (fuel + fuel0)%nat ltac:(lia)) as [_ HQ].
  rewrite run_more in HQ by exact Hf. exact HQ.
Qed.

End RunFacts.

Lemma wants_shell_defined argv : wants_shell argv <> None.
Proof.
  unfold wants_shell, argv_read.
  destruct argv as [|a0 [|a1 rest]]; cbn; discriminate.
Qed.

(** ** Every run of [main] *)

Section Shape.
Context {W : Type} (h : os W).
Hypothesis Hresp : responsive h.
Variable strerror : Z -> string.

Lemma no_return c w w1 (Q : Prop) : h c w = (w1, None) -> returns c = true -> Q.
Proof. intros E Hr. exfalso. apply (Hresp c w Hr). rewrite E. reflexivity. Qed.

Ltac call :=
  unfold stat, mkdir, open, chroot, geteuid, fchdir, close, chdir, errno, fflush,
    printf, fprintf, opendir, readdir, closedir, execl;
  lazymatch goal with
  | |- terminates _ (ITree.bind (sys ?c) _) _ _ =>
      apply (terminates_call _ c);
      [ let w' := fresh "w" in let x := fresh "x" in let E := fresh "E" in
        intros w' x E
      | let E := fresh "E" in
        intros ? E; try (apply (no_return _ _ _ _ E); reflexivity) ]
  end.

Ltac die :=
  unfold exit; apply (terminates_call _ (Exit 1)); [intros ? []| intros ? ?].

Lemma ensure_staging_spec w :
  terminates h (ensure_staging strerror) w (fun tr o _ => staging_run strerror tr o).
Proof.
  unfold ensure_staging. call.
  destruct (fst x <? 0) eqn:Hr.
  - apply Z.ltb_lt in Hr. call.
    destruct (x0 =? ENOENT) eqn:He.
    + apply Z.eqb_eq in He. subst. call.
      destruct (x0 <? 0) eqn:Hm.
      * apply Z.ltb_lt in Hm. call. call. die.
        apply staging_mkdir_failed; assumption.
      * apply Z.ltb_ge in Hm. apply terminates_ret.
        apply staging_created; assumption.
    + apply Z.eqb_neq in He. call. call. die.
      apply staging_stat_failed; assumption.
  - apply Z.ltb_ge in Hr.
    destruct (S_ISDIR (st_mode (snd x))) eqn:Hd; cbn [negb].
    + apply terminates_ret. apply staging_present; assumption.
    + call. die. apply staging_not_dir; assumption.
Qed.

Lemma climb_spec n w :
  terminates h (climb n) w (fun tr o _ => o = Returned tt /\ climbs n tr).
Proof.
  revert w. induction n as [|n IH]; intros w; cbn [climb].
  - apply terminates_ret. split; [reflexivity | constructor].
  - call. eapply terminates_conseq; [apply IH|].
    cbv beta. intros tr o _ [-> Hc]. split; [reflexivity | constructor; exact Hc].
Qed.

Lemma print_entries_spec d w :
  drains h d w ->
  terminates h (print_entries d) w (fun tr o _ =>
    o = Returned tt /\ exists tl, listing d tl /\ tr = (tl ++ [ent (Readdir d) None])%list).
Proof.
  induction 1 as [w w1 E | w w1 name w2 x E1 E2 _ IH];
    unfold print_entries;
    (eapply terminates_observe; [apply observe_iter|]);
    apply terminates_bind; call.
  - rewrite E in E0. injection E0 as <- <-.
    apply terminates_ret. apply terminates_ret.
    split; [reflexivity|]. exists []. split; [constructor | reflexivity].
  - rewrite E1 in E. injection E as <- <-.
    call. rewrite E2 in E. injection E as <- <-.
    apply terminates_ret. apply terminates_tau.
    eapply terminates_conseq; [apply IH|].
    cbv beta. intros tr o _ (-> & tl & Hl & ->).
    split; [reflexivity|].
    exists (ent (Readdir d) (Some name) :: ent (Fprintf stdout (name ++ nl)) x :: tl).
    split; [constructor; exact Hl | reflexivity].
Qed.

Hypothesis Hfin : finite_dirs h.

Ltac stage pfx' :=
  lazymatch goal with
  | |- terminates _ _ _ (fun tr o _ => main_run _ ?argv _ o) =>
      apply terminates_conseq
        with (Q := fun tr o (_ : W) => main_run strerror argv (pfx' ++ tr)%list o);
      [| let Hm := fresh in
         intros ? ? ? Hm; cbn [app]; repeat rewrite <- app_assoc in Hm; exact Hm]
  end.

Theorem main_spec v argv w :
  terminates h (main_with strerror (Some v) argv) w
    (fun tr o _ => main_run strerror argv tr o).
Proof.
  unfold main_with. call. rename x into r1.
  destruct (fst r1 =? 0) eqn:Hr1; cbn [negb].
  2:{ apply Z.eqb_neq in Hr1. apply terminates_bind. call. call. die.
      apply fail_stat1; assumption. }
  apply Z.eqb_eq in Hr1.
  apply terminates_bind, terminates_ret. cbn [app].
  (* the temporary directory *)
  apply terminates_bind.
  eapply terminates_conseq; [apply ensure_staging_spec|].
  cbv beta. intros ts o ws Hs.
  destruct o as [[]|c|]; [| inversion Hs; subst; apply fail_staging; assumption
                          | inversion Hs].
  assert (Hstaged : staged strerror (ent (Stat "/") r1 :: ts) (snd r1))
    by (constructor; assumption).
  stage (ent (Stat "/") r1 :: ts).
  generalize dependent (ent (Stat "/") r1 :: ts). intros pfx Hstaged.
  generalize dependent (snd r1). intros sbuf1 Hstaged. clear Hs E Hr1 ts r1 w w0.
  (* open "." *)
  cbn [ifdef]. apply terminates_bind. unfold open_cwd. call. rename x into dir_fd.
  destruct (dir_fd <? 0) eqn:Hfd.
  { apply Z.ltb_lt in Hfd. call. call. die. apply fail_open with sbuf1; assumption. }
  apply Z.ltb_ge in Hfd. apply terminates_ret.
  assert (Hopened : opened strerror (pfx ++ [ent (Open "." O_RDONLY) dir_fd]) sbuf1 dir_fd)
    by (constructor; assumption).
  stage (pfx ++ [ent (Open "." O_RDONLY) dir_fd])%list. clear Hstaged.
  generalize dependent (pfx ++ [ent (Open "." O_RDONLY) dir_fd])%list.
  clear pfx. intros pfx Hopened.
  (* chroot to the temporary directory *)
  apply terminates_bind. unfold nest_chroot. call. rename x into c.
  destruct (c <? 0) eqn:Hc.
  { apply Z.ltb_lt in Hc. call. call. call.
    destruct (x1 =? 0) eqn:Hu; cbn [negb].
    - apply Z.eqb_eq in Hu. subst. apply terminates_bind, terminates_ret. die.
      apply fail_chroot_root with sbuf1 dir_fd; assumption.
    - apply Z.eqb_neq in Hu. apply terminates_bind. call. apply terminates_ret. die.
      apply fail_chroot_user with sbuf1 dir_fd; assumption. }
  apply Z.ltb_ge in Hc. apply terminates_ret.
  assert (Hnested : nested strerror (pfx ++ [ent (Chroot TEMP_DIR) c]) sbuf1 dir_fd)
    by (constructor; assumption).
  stage (pfx ++ [ent (Chroot TEMP_DIR) c])%list. clear Hopened.
  generalize dependent (pfx ++ [ent (Chroot TEMP_DIR) c])%list.
  clear pfx. intros pfx Hnested.
  (* fchdir back *)
  apply terminates_bind. unfold restore_cwd. call. rename x into f.
  destruct (f <? 0) eqn:Hf.
  { apply Z.ltb_lt in Hf. call. call. die. apply fail_fchdir with sbuf1; assumption. }
  apply Z.ltb_ge in Hf. call. rename x into cl. apply terminates_ret.
  assert (Hrestored : restored strerror
            (pfx ++ [ent (Fchdir dir_fd) f; ent (Close dir_fd) cl]) sbuf1)
    by (econstructor; eassumption).
  stage (pfx ++ [ent (Fchdir dir_fd) f; ent (Close dir_fd) cl])%list. clear Hnested.
  generalize dependent (pfx ++ [ent (Fchdir dir_fd) f; ent (Close dir_fd) cl])%list.
  clear pfx. intros pfx Hrestored.
  (* the climb and the second chroot *)
  apply terminates_bind.
  eapply terminates_conseq; [apply climb_spec|].
  cbv beta. intros tc o wc [-> Hclimbs].
  call. rename x into cr. call. rename x into fl.
  assert (Hclimbed : climbed strerror
            (pfx ++ tc ++ [ent (Chroot ".") cr; ent (Fflush stdout) fl]) sbuf1)
    by (constructor; assumption).
  stage (pfx ++ tc ++ [ent (Chroot ".") cr; ent (Fflush stdout) fl])%list. clear Hrestored.
  generalize dependent (pfx ++ tc ++ [ent (Chroot ".") cr; ent (Fflush stdout) fl])%list.
  clear pfx. intros pfx Hclimbed.
  (* the check *)
  call. rename x into r2.
  destruct (fst r2 =? 0) eqn:Hr2; cbn [negb].
  2:{ apply Z.eqb_neq in Hr2. apply terminates_bind. call. call. die.
      apply fail_stat2 with sbuf1; assumption. }
  apply Z.eqb_eq in Hr2. apply terminates_bind, terminates_ret. cbn [app].
  fold (same_file sbuf1 (snd r2)).
  destruct (same_file sbuf1 (snd r2)) eqn:Hsame.
  { apply terminates_bind. call. die. apply fail_same with sbuf1; assumption. }
  apply terminates_bind, terminates_ret. cbn [app].
  call. rename x into b. call. rename x into fl2.
  assert (Hverified : verified strerror
            (pfx ++ [ent (Stat "/") r2; ent (Fprintf stderr (msg_broken)) b;
                     ent (Fflush stderr) fl2]))
    by (econstructor; eassumption).
  stage (pfx ++ [ent (Stat "/") r2; ent (Fprintf stderr (msg_broken)) b;
                 ent (Fflush stderr) fl2])%list. clear Hclimbed.
  generalize dependent (pfx ++ [ent (Stat "/") r2; ent (Fprintf stderr (msg_broken)) b;
                 ent (Fflush stderr) fl2])%list.
  clear pfx. intros pfx Hverified.
  (* the listing *)
  apply terminates_bind. unfold list_root. call. rename x into dir.
  destruct dir as [d|].
  2:{ call. call. die. apply fail_opendir; assumption. }
  call. rename x into p.
  apply terminates_bind.
  eapply terminates_conseq; [apply print_entries_spec, Hfin|].
  cbv beta. intros tl' o wl (-> & tl & Hl & ->).
  call. rename x into cd. apply terminates_ret.
  assert (Hlisted : listed strerror
            (pfx ++ [ent (Opendir "/") (Some d); ent (Fprintf stdout msg_dir) p]
                 ++ tl ++ [ent (Readdir d) None; ent (Closedir d) cd]))
    by (constructor; assumption).
  apply terminates_conseq
    with (Q := fun tr o (_ : W) =>
                 main_run strerror argv
                   ((pfx ++ [ent (Opendir "/") (Some d); ent (Fprintf stdout msg_dir) p]
                         ++ tl ++ [ent (Readdir d) None; ent (Closedir d) cd]) ++ tr)%list o).
  2:{ intros tr o _ Hm.
      repeat (first [rewrite <- app_assoc in Hm | progress cbn [app] in Hm]).
      repeat (first [rewrite <- app_assoc | progress cbn [app]]).
      exact Hm. }
  clear Hverified.
  generalize dependent
    (pfx ++ [ent (Opendir "/") (Some d); ent (Fprintf stdout msg_dir) p]
         ++ tl ++ [ent (Readdir d) None; ent (Closedir d) cd])%list.
  clear pfx. intros pfx Hlisted.
  (* the shell *)
  unfold handoff. destruct (wants_shell argv) as [[|]|] eqn:Hw.
  - call. rename x into s. call.
    + rename x into r. destruct (r <? 0) eqn:Hr.
      * apply Z.ltb_lt in Hr. call. call. die. apply fail_exec; assumption.
      * apply Z.ltb_ge in Hr. apply terminates_ret. apply end_exec_returned; assumption.
    + apply end_shell; assumption.
  - apply terminates_ret. rewrite app_nil_r. apply end_no_shell; assumption.
  - destruct (wants_shell_defined argv Hw).
Qed.

End Shape.

(** ** The argument check *)

Lemma head_byte_zero c s : head_byte (String c s) = 0 -> c = Ascii.zero.
Proof.
  cbn. intros H. assert (H' : nat_of_ascii c = O) by lia.
  rewrite <- (ascii_nat_embedding c), H'. reflexivity.
Qed.

Lemma head_byte_inj c d s t : head_byte (String c s) = head_byte (String d t) -> c = d.
Proof.
  cbn. intros H. apply Nat2Z.inj in H.
  rewrite <- (ascii_nat_embedding c), H. apply ascii_nat_embedding.
Qed.

(** On C strings [strcmp] is 0 exactly for equal strings. *)
Lemma strcmp_eq a b :
  nul_free a = true -> nul_free b = true -> (strcmp a b = 0 <-> a = b).
Proof.
  revert b. induction a as [|c a IH]; intros [|d b] Ha Hb.
  - cbn. tauto.
  - cbn [nul_free] in Hb. apply andb_prop in Hb. destruct Hb as [Hd _].
    split; [|discriminate]. cbn [strcmp]. intros H.
    assert (Hz : head_byte (String d b) = 0) by (cbn [head_byte] in *; lia).
    apply head_byte_zero in Hz. subst. discriminate Hd.
  - cbn [nul_free] in Ha. apply andb_prop in Ha. destruct Ha as [Hc _].
    split; [|discriminate]. cbn [strcmp]. intros H.
    assert (Hz : head_byte (String c a) = 0) by (cbn [head_byte] in *; lia).
    apply head_byte_zero in Hz. subst. discriminate Hc.
  - cbn [nul_free] in Ha, Hb.
    apply andb_prop in Ha. destruct Ha as [Hc Ha].
    apply andb_prop in Hb. destruct Hb as [Hd Hb].
    cbn [strcmp].
    destruct (head_byte (String c a) =? head_byte (String d b)) eqn:E.
    + apply Z.eqb_eq in E. apply head_byte_inj in E. subst d.
      destruct (head_byte (String c a) =? 0) eqn:E0.
      * apply Z.eqb_eq, head_byte_zero in E0. subst. discriminate Hc.
      * rewrite (IH b Ha Hb). split; [intros ->; reflexivity | intros H; injection H; auto].
    + apply Z.eqb_neq in E. split.
      * intros H. exfalso. apply E. lia.
      * intros H. injection H as -> ->. exfalso. apply E. reflexivity.
Qed.

(** The shell is left out exactly when [argv[1]] is ["--no-shell"]. *)
Lemma wants_shell_flag argv :
  Forall (fun s => nul_free s = true) argv ->
  (wants_shell argv = Some false <-> first_arg argv = Some "--no-shell").
Proof.
  intros Hc. unfold wants_shell, argv_read, first_arg.
  destruct argv as [|a0 [|a1 rest]]; cbn [nth_error List.length Nat.eqb];
    try (split; discriminate).
  assert (H1 : nul_free a1 = true).
  { apply Forall_cons_iff in Hc. destruct Hc as [_ Hc].
    apply Forall_cons_iff in Hc. apply Hc. }
  pose proof (strcmp_eq a1 "--no-shell" H1 eq_refl) as Hs.
  destruct (0 =? strcmp a1 "--no-shell") eqn:E; cbn [negb].
  - apply Z.eqb_eq in E. symmetry in E. apply Hs in E. subst. tauto.
  - apply Z.eqb_neq in E. split; [intros H; discriminate H|].
    intros H. injection H as H. apply Hs in H. congruence.
Qed.

(** ** Reading logs *)

Lemma stream_eq_dec (a b : stream) : {a = b} + {a <> b}.
Proof. decide equality. Qed.

Lemma call_eq_dec (a b : call) : {a = b} + {a <> b}.
Proof.
  decide equality;
    try apply string_dec; try apply Z.eq_dec; try apply stream_eq_dec;
    apply (list_eq_dec string_dec).
Qed.

Lemma ent_inj c (x y : ret_ty c) : ent c x = ent c y -> x = y.
Proof. apply (Eqdep_dec.inj_pair2_eq_dec _ call_eq_dec). Qed.

Lemma ent_call c c' (x : ret_ty c) (y : ret_ty c') : ent c x = ent c' y -> c = c'.
Proof. intros H. exact (f_equal e_call H). Qed.

Lemma cons_inv {A} (a b : A) (l l' : list A) : a :: l = b :: l' -> a = b /\ l = l'.
Proof. intros H. injection H. auto. Qed.

(** An entry of [seg ++ rest] is in [seg] or in [rest]. *)
Lemma split_app (pre post seg rest : list entry) (e : entry) :
  (pre ++ e :: post = seg ++ rest)%list ->
  (In e seg /\ exists post', post = (post' ++ rest)%list /\ seg = (pre ++ e :: post')%list) \/
  (exists pre', pre = (seg ++ pre')%list /\ (pre' ++ e :: post = rest)%list).
Proof.
  revert pre. induction seg as [|s seg IH]; intros pre H.
  - right. exists pre. auto.
  - destruct pre as [|p pre]; cbn in H; injection H as -> H.
    + left. split; [left; reflexivity|]. exists seg. auto.
    + destruct (IH pre H) as [(Hi & post' & -> & ->) | (pre' & -> & H')].
      * left. split; [right; exact Hi|]. exists post'. auto.
      * right. exists pre'. auto.
Qed.

Lemma climbs_call n tc e : climbs n tc -> In e tc -> e_call e = Chdir "..".
Proof.
  induction 1 as [|n x tr _ IH]; intros Hi; [destruct Hi|].
  destruct Hi as [<- | Hi]; [reflexivity | auto].
Qed.

Lemma listing_calls d tl e : listing d tl -> In e tl -> listing_call (e_call e) = true.
Proof.
  induction 1 as [|name x tr _ IH]; intros Hi; [destruct Hi|].
  destruct Hi as [<- | [<- | Hi]]; [reflexivity | reflexivity | auto].
Qed.

Lemma climbs_entry n tc e : climbs n tc -> In e tc -> exists x, e = ent (Chdir "..") x.
Proof.
  induction 1 as [|n x tr _ IH]; intros Hi; [destruct Hi|].
  destruct Hi as [<- | Hi]; [exists x; reflexivity | auto].
Qed.

Lemma listing_entry d tl e :
  listing d tl -> In e tl ->
  exists name x, e = ent (Readdir d) (Some name) \/ e = ent (Fprintf stdout (name ++ nl)) x.
Proof.
  induction 1 as [|name x tr _ IH]; intros Hi; [destruct Hi|].
  destruct Hi as [<- | [<- | Hi]]; [exists name, x; auto | exists name, x; auto | auto].
Qed.

Lemma climbs_next n tc pre x post0 cr rest :
  climbs n tc -> tc = (pre ++ ent (Chdir "..") x :: post0)%list ->
  exists e' post',
    (post0 ++ ent (Chroot ".") cr :: rest)%list = e' :: post' /\
    (e_call e' = Chdir ".." \/ e_call e' = Chroot ".").
Proof.
  intros Hc ->. destruct post0 as [|e' post0]; cbn.
  - eexists _, _. split; [reflexivity | right; reflexivity].
  - exists e', (post0 ++ ent (Chroot ".") cr :: rest)%list.
    split; [reflexivity | left].
    apply (climbs_call _ _ _ Hc). apply in_or_app. right. right. left. reflexivity.
Qed.

Lemma climb_count_cons e tr :
  climb_count (e :: tr) = ((if is_climb e then 1 else 0) + climb_count tr)%nat.
Proof. unfold climb_count. cbn. destruct (is_climb e); reflexivity. Qed.

Lemma climb_count_app a b : climb_count (a ++ b) = (climb_count a + climb_count b)%nat.
Proof. unfold climb_count. rewrite filter_app, length_app. reflexivity. Qed.

Lemma climbs_count n tc : climbs n tc -> climb_count tc = n.
Proof.
  induction 1 as [|n x tr _ IH]; [reflexivity|].
  rewrite climb_count_cons. cbn. rewrite IH. reflexivity.
Qed.

Lemma climbs_root_stats n tc : climbs n tc -> root_stats tc = [].
Proof. induction 1; [reflexivity | assumption]. Qed.

Lemma climbs_stderr n tc : climbs n tc -> stderr_text tc = [].
Proof. induction 1; [reflexivity | assumption]. Qed.

Lemma listing_root_stats d tl : listing d tl -> root_stats tl = [].
Proof. induction 1; [reflexivity | assumption]. Qed.

Lemma listing_stderr d tl : listing d tl -> stderr_text tl = [].
Proof. induction 1; [reflexivity | assumption]. Qed.

Lemma root_stats_cons e tr : root_stats (e :: tr) = (root_stat e ++ root_stats tr)%list.
Proof. reflexivity. Qed.

Lemma root_stats_app a b : root_stats (a ++ b) = (root_stats a ++ root_stats b)%list.
Proof. apply flat_map_app. Qed.

Lemma stderr_text_cons e tr : stderr_text (e :: tr) = (stderr_line e ++ stderr_text tr)%list.
Proof. reflexivity. Qed.

Lemma stderr_text_app a b : stderr_text (a ++ b) = (stderr_text a ++ stderr_text b)%list.
Proof. apply flat_map_app. Qed.

(** Computing [root_stats] and [stderr_text] over the log of a run. *)
Ltac read_log :=
  repeat first
    [ rewrite root_stats_cons | rewrite root_stats_app
    | rewrite stderr_text_cons | rewrite stderr_text_app
    | erewrite climbs_root_stats by eassumption
    | erewrite climbs_stderr by eassumption
    | erewrite listing_root_stats by eassumption
    | erewrite listing_stderr by eassumption ];
  cbn [root_stat stderr_line e_call ent projT1 app root_stats stderr_text flat_map
       String.eqb Ascii.eqb Bool.eqb].

Lemma climbs_forall (P : entry -> Prop) n tc :
  climbs n tc -> (forall x, P (ent (Chdir "..") x)) -> Forall P tc.
Proof. induction 1; intros HP; constructor; auto. Qed.

Lemma listing_forall (P : entry -> Prop) d tl :
  listing d tl ->
  (forall name, P (ent (Readdir d) (Some name))) ->
  (forall name x, P (ent (Fprintf stdout (name ++ nl)) x)) ->
  Forall P tl.
Proof. induction 1; intros H1 H2; repeat constructor; auto. Qed.

(** Proving [Forall P l] entry by entry; what is left are the entries on
    which [P] does not hold by computation. *)
Ltac each_entry :=
  repeat first
    [ apply Forall_nil
    | apply Forall_cons
    | apply Forall_app; split
    | match goal with
      | Hc : climbs _ ?tc |- Forall _ ?tc => apply (climbs_forall _ _ _ Hc); intros
      | Hl : listing _ ?tl |- Forall _ ?tl => apply (listing_forall _ _ _ Hl); intros
      end ];
  try (cbn; tauto).

(** The facts that [H : Forall P l] holds for the entries written out in [l]. *)
Ltac all_of H :=
  lazymatch type of H with
  | Forall _ [] => clear H
  | Forall _ (_ :: _) =>
      let H0 := fresh "Hent" in
      apply Forall_cons_iff in H; destruct H as [H0 H]; cbn in H0; all_of H
  | Forall _ (_ ++ _)%list =>
      let H0 := fresh "Hseg" in
      apply Forall_app in H; destruct H as [H0 H]; all_of H
  | _ => idtac
  end.

(** Entries found inside a climb or a listing are of known calls. *)
Ltac segments :=
  repeat match goal with
         | Hc : climbs _ ?tc, Hi : In _ ?tc |- _ =>
             let x := fresh "x" in
             destruct (climbs_entry _ _ _ Hc Hi) as [x ->]; clear Hi
         | Hl : listing _ ?tl, Hi : In _ ?tl |- _ =>
             let name := fresh "name" in
             let x := fresh "x" in
             destruct (listing_entry _ _ _ Hl Hi) as [name [x [-> | ->]]]; clear Hi
         end.

(** Unfolding the stages of a run into its log. *)
Ltac flatten :=
  repeat match goal with
         | H : listed _ _ |- _ => inversion H; subst; clear H
         | H : verified _ _ |- _ => inversion H; subst; clear H
         | H : climbed _ _ _ |- _ => inversion H; subst; clear H
         | H : restored _ _ _ |- _ => inversion H; subst; clear H
         | H : nested _ _ _ _ |- _ => inversion H; subst; clear H
         | H : opened _ _ _ _ |- _ => inversion H; subst; clear H
         | H : staged _ _ _ |- _ => inversion H; subst; clear H
         | H : staging_run _ _ _ |- _ => inversion H; subst; clear H
         end;
  repeat (first [rewrite <- app_assoc in * | progress cbn [app] in *]).

Ltac find_in :=
  cbn [In]; repeat first [ left; reflexivity | right | rewrite in_app_iff; cbn [In] ].

(** Two entries of different calls are different. *)
Ltac differ H :=
  solve [ exfalso; apply ent_call in H; discriminate H ].

(** Where entry [e] of [H : pre ++ e :: post = l] can be in [l]. *)
Ltac locate H :=
  lazymatch type of H with
  | (?pre ++ _ :: _)%list = [] => destruct pre; discriminate H
  | (?pre ++ _ :: _)%list = _ :: _ =>
      let H0 := fresh "Hhere" in
      destruct pre as [|? pre]; cbn [app] in H;
      apply cons_inv in H; destruct H as [H0 H];
      [ first [ differ H0
              | apply ent_inj in H0; first [discriminate H0 | subst]
              | idtac ]
      | subst; locate H ]
  | (?pre ++ ?e :: _)%list = (?seg ++ _)%list =>
      let pre' := fresh "pre" in
      let post' := fresh "post" in
      let Hi := fresh "Hin" in
      let Hpost := fresh "Hpost" in
      let Hseg := fresh "Hseg" in
      apply split_app in H;
      destruct H as [(Hi & post' & Hpost & Hseg) | (pre' & -> & H)];
      [ try solve
          [ exfalso;
            first [ match goal with
                    | Hc : climbs _ seg |- _ => apply (climbs_call _ _ _ Hc) in Hi
                    end; discriminate Hi
                  | match goal with
                    | Hl : listing _ seg |- _ => apply (listing_calls _ _ _ Hl) in Hi
                    end; discriminate Hi ] ]
      | locate H ]
  end.

(** The cases of [H : In e l] for the entries written out in [l]. *)
Ltac search H :=
  lazymatch type of H with
  | In _ [] => destruct H
  | In _ (_ :: _) =>
      let H0 := fresh "Hhere" in
      destruct H as [H0 | H];
      [ first [ differ H0
              | apply ent_inj in H0; first [discriminate H0 | subst]
              | idtac ]
      | search H ]
  | In _ (?seg ++ _)%list =>
      let Hi := fresh "Hin" in
      apply in_app_or in H; destruct H as [Hi | H];
      [ try solve
          [ exfalso;
            first [ match goal with
                    | Hc : climbs _ seg |- _ => apply (climbs_call _ _ _ Hc) in Hi
                    end; discriminate Hi
                  | match goal with
                    | Hl : listing _ seg |- _ => apply (listing_calls _ _ _ Hl) in Hi
                    end; discriminate Hi ] ]
      | search H ]
  | _ => idtac
  end.

Section Claims.
Context {W : Type} (h : os W).
Hypothesis Hresp : responsive h.
Hypothesis Hfin : finite_dirs h.
Variable strerror : Z -> string.

(** C9.  If opening the real root for the listing fails, after the escape
    has been checked and announced, the program exits with status 1. *)
Theorem opendir_failure_is_fatal argv w :
  terminates h (main strerror argv) w (fun tr o _ =>
    forall pre post,
      tr = (pre ++ ent (Opendir "/") None :: post)%list ->
      o = Stopped (Exit 1) /\
      (exists b, In (ent (Fprintf stderr (msg_broken)) b) pre) /\
      exists e x, post = [ent Errno e; ent (Fprintf stderr (msg_opendir strerror e)) x]).
Proof.
  eapply terminates_conseq; [apply (main_spec h Hresp strerror Hfin 0)|].
  cbv beta. intros tr o _ Hrun pre post.
  destruct Hrun; flatten; intros Hsplit; symmetry in Hsplit.
  all: locate Hsplit.
  all: split; [reflexivity|]; split; [exists b; find_in | eauto].
Qed.

(** C7.  If the chroot to the temporary directory fails, the program prints
    the failure, asks for the effective user id and, when that is not 0,
    prints the hint that root is needed; then it exits with status 1.
    Nothing else is called after the failed chroot: no fchdir, no chdir, no
    second chroot, no stat. *)
Theorem nested_chroot_failure argv w :
  terminates h (main strerror argv) w (fun tr o _ =>
    forall pre c post,
      tr = (pre ++ ent (Chroot TEMP_DIR) c :: post)%list -> c < 0 ->
      o = Stopped (Exit 1) /\
      exists e x u,
        (u = 0 /\
         post = [ent Errno e; ent (Fprintf stderr (msg_chroot strerror e)) x;
                 ent Geteuid u]) \/
        (u <> 0 /\
         exists y,
           post = [ent Errno e; ent (Fprintf stderr (msg_chroot strerror e)) x;
                   ent Geteuid u; ent (Fprintf stderr msg_hint) y])).
Proof.
  eapply terminates_conseq; [apply (main_spec h Hresp strerror Hfin 0)|].
  cbv beta. intros tr o _ Hrun pre c post.
  destruct Hrun; flatten; intros Hsplit Hc; symmetry in Hsplit.
  all: locate Hsplit.
  all: try lia.
  all: split; [reflexivity|]; exists e, x.
  - exists 0. left. auto.
  - exists 0. left. auto.
  - exists u. right. split; [assumption|]. exists y. reflexivity.
  - exists u. right. split; [assumption|]. exists y. reflexivity.
Qed.

(** C1, as the code has it.  A failure of any call whose result the program
    tests ends the run with status 1: one of the failure messages is
    printed, and only reads of [errno], [geteuid] and writes to [stderr]
    follow the failed call.  The results of the 1024 [chdir("..")] and of
    [chroot(".")] are not tested: whatever they return, all 1024 calls are
    made and the program goes on to [chroot(".")], [fflush(stdout)] and the
    second [stat] of "/".  What that [stat] returns then decides alone: a
    failure of it ends the run; with the same device and inode as at the
    start the run ends with status 1 on "Breaking out of the chroot did not
    work."; with another identity the run announces success and goes on. *)
Theorem tested_calls_are_fatal argv w :
  terminates h (main strerror argv) w (fun tr o _ =>
    (forall pre e post,
       tr = (pre ++ e :: post)%list -> failed_check e post ->
       o = Stopped (Exit 1) /\ Forall diagnostic post /\
       exists en text x,
         In (ent (Fprintf stderr text) x) post /\
         In text (failure_texts strerror en)) /\
    (forall pre x post,
       tr = (pre ++ ent (Chdir "..") x :: post)%list ->
       exists e' post', post = e' :: post' /\
         (e_call e' = Chdir ".." \/ e_call e' = Chroot ".")) /\
    (forall pre x post,
       tr = (pre ++ ent (Chroot ".") x :: post)%list ->
       climb_count pre = 1024%nat /\
       exists r1 pre0 y r2 post',
         pre = ent (Stat "/") r1 :: pre0 /\
         post = ent (Fflush stdout) y :: ent (Stat "/") r2 :: post' /\
         (fst r2 <> 0 -> o = Stopped (Exit 1)) /\
         (fst r2 = 0 -> same_file (snd r1) (snd r2) = true ->
            o = Stopped (Exit 1) /\
            exists z, post' = [ent (Fprintf stderr msg_ineffective) z]) /\
         (fst r2 = 0 -> same_file (snd r1) (snd r2) = false ->
            exists b post'', post' = ent (Fprintf stderr msg_broken) b :: post''))).
Proof.
  eapply terminates_conseq; [apply (main_spec h Hresp strerror Hfin 0)|].
  cbv beta. intros tr o _ Hrun. split; [|split].
  - intros pre e post.
    destruct Hrun; flatten; intros Hsplit Hf; symmetry in Hsplit.
    all: locate Hsplit.
    all: segments.
    all: subst; cbn in Hf; try contradiction; try lia.
    all: try solve [ destruct Hf as (_ & en & rest & Hp & Hne);
                     apply cons_inv in Hp; destruct Hp as [Hp _];
                     apply ent_inj in Hp; congruence ].
    all: try discriminate Hf.
    all: try solve [ lazymatch type of Hf with
                     | _ /\ _ => destruct Hf as [Hp _]; first [lia | discriminate Hp]
                     end ].
    all: split; [reflexivity |]; split; [repeat constructor|].
    all: eexists _, _, _; split; [find_in|]; unfold failure_texts; cbn [In]; tauto.
  - intros pre x post.
    destruct Hrun; flatten; intros Hsplit; symmetry in Hsplit.
    all: locate Hsplit.
    all: subst post; eapply climbs_next; eassumption.
  - intros pre x post.
    destruct Hrun; flatten; intros Hsplit; symmetry in Hsplit.
    all: locate Hsplit.
    all: split;
      [ repeat rewrite climb_count_cons; rewrite climb_count_app;
        erewrite climbs_count by eassumption; reflexivity |].
    all: try subst post.
    all: eexists _, _, _, _, _; split; [reflexivity|]; split; [reflexivity|].
    all: split; [intros Hr2; first [reflexivity | congruence]|].
    all: split; intros Hr2 Hs; try congruence; eauto.
Qed.

(** The message of an escape that had no effect is none of the messages
    that report a failed call. *)
Lemma ineffective_is_distinct e : ~ In msg_ineffective (failure_texts strerror e).
Proof.
  intros Hi. cbn in Hi.
  repeat (destruct Hi as [Hi | Hi]; [discriminate Hi|]). exact Hi.
Qed.

(** C2.  In a run where every call succeeds and "/" was looked at twice,
    success is announced exactly when the two identities differ; when
    device and inode are both the same the run ends with status 1 on its
    own message, which is not one of the call-failure messages. *)
Theorem verdict_by_identity argv w :
  terminates h (main strerror argv) w (fun tr o _ =>
    Forall call_ok tr ->
    forall sbuf1 sbuf2, root_stats tr = [sbuf1; sbuf2] ->
    (In msg_broken (stderr_text tr) <-> same_file sbuf1 sbuf2 = false) /\
    (same_file sbuf1 sbuf2 = true ->
       o = Stopped (Exit 1) /\
       stderr_text tr = [msg_ineffective] /\
       forall e, ~ In msg_ineffective (failure_texts strerror e))).
Proof.
  eapply terminates_conseq; [apply (main_spec h Hresp strerror Hfin 0)|].
  cbv beta. intros tr o _ Hrun.
  destruct Hrun; flatten; intros Hok sbuf1 sbuf2 Hst.
  all: revert Hst; read_log; intros Hst.
  all: try discriminate Hst.
  all: injection Hst as <- <-.
  all: all_of Hok.
  all: try contradiction.
  all: try lia.
  all: split;
    [ split;
      [ intros [Hm | []]; first [ discriminate Hm | assumption ]
      | intros Hs; first [ congruence | left; reflexivity ] ]
    | intros Hs; first [ congruence | auto using ineffective_is_distinct ] ].
Qed.

(** C6.  Take a run that went through the escape and the listing, that is,
    one that closed the directory stream.  If [argv[1]] is ["--no-shell"]
    it returns 0 and [execl] is never called.  In any other case, also
    when [argv[1]] is missing, it announces the shell and calls
    [execl("/bin/sh", "-i", NULL)]: the run ends inside that call, or the
    call returns and, with a negative result, the program exits with
    status 1. *)
Theorem shell_unless_flag argv w :
  Forall (fun s => nul_free s = true) argv ->
  terminates h (main strerror argv) w (fun tr o _ =>
    forall d cd, In (ent (Closedir d) cd) tr ->
    (first_arg argv = Some "--no-shell" ->
       o = Returned 0 /\ Forall (fun e => ~ is_exec e) tr) /\
    (first_arg argv <> Some "--no-shell" ->
       exists pre s,
         (o = Stopped (Execl "/bin/sh" ["-i"]) /\
          tr = (pre ++ [ent (Fprintf stderr msg_shell) s])%list) \/
         (exists r post,
            tr = (pre ++ ent (Fprintf stderr msg_shell) s
                      :: ent (Execl "/bin/sh" ["-i"]) r :: post)%list /\
            (r < 0 -> o = Stopped (Exit 1))))).
Proof.
  intros Hargv.
  eapply terminates_conseq; [apply (main_spec h Hresp strerror Hfin 0)|].
  cbv beta. intros tr o _ Hrun d' cd' Hin.
  pose proof (wants_shell_flag argv Hargv) as Hflag.
  destruct Hrun.
  1-9: exfalso; flatten; search Hin.
  - split; [intros _ | intros Hn; exfalso; apply Hn, Hflag; assumption].
    split; [reflexivity|]. clear Hin. flatten; each_entry.
  - split; [intros Hf; apply Hflag in Hf; congruence | intros _].
    exists pfx, s. left. auto.
  - split; [intros Hf; apply Hflag in Hf; congruence | intros _].
    exists pfx, s. right. eexists _, _. split; [reflexivity | auto].
  - split; [intros Hf; apply Hflag in Hf; congruence | intros _].
    exists pfx, s. right. eexists _, _. split; [reflexivity | intros; lia].
Qed.


(** C10.  With an empty argument vector or with no [argv[1]] the test of
    line 179 reads no slot outside the array: it stops at the first NULL
    and gives true.  A run that gets to the test then announces the shell
    and calls [execl]. *)
Theorem short_argv_takes_shell argv w :
  (List.length argv <= 1)%nat ->
  wants_shell argv = Some true /\
  terminates h (main strerror argv) w (fun tr o _ =>
    o <> Stopped Undefined /\
    forall d cd, In (ent (Closedir d) cd) tr ->
    exists pre s,
      (o = Stopped (Execl "/bin/sh" ["-i"]) /\
       tr = (pre ++ [ent (Fprintf stderr msg_shell) s])%list) \/
      (exists r post,
         tr = (pre ++ ent (Fprintf stderr msg_shell) s
                   :: ent (Execl "/bin/sh" ["-i"]) r :: post)%list)).
Proof.
  intros Hlen.
  assert (Hw : wants_shell argv = Some true).
  { destruct argv as [|a0 [|a1 rest]]; [reflexivity | reflexivity | cbn in Hlen; lia]. }
  split; [exact Hw|].
  eapply terminates_conseq; [apply (main_spec h Hresp strerror Hfin 0)|].
  cbv beta. intros tr o _ Hrun.
  split; [destruct Hrun; discriminate|].
  intros d' cd' Hin.
  destruct Hrun.
  1-9: exfalso; flatten; search Hin.
  - congruence.
  - exists pfx, s. left. auto.
  - exists pfx, s. right. eauto.
  - exists pfx, s. right. eauto.
Qed.


(** On every path to a shell, text is written to both streams after the
    last [fflush]: the listing to [stdout], the announcement of the shell
    to [stderr].  The program calls [execl] with that text not flushed. *)
Lemma exec_after_unflushed_writes argv w :
  terminates h (main strerror argv) w (fun tr o _ =>
    o = Stopped (Execl "/bin/sh" ["-i"]) ->
    exists pre p post s,
      tr = (pre ++ ent (Fprintf stdout msg_dir) p :: post
                ++ [ent (Fprintf stderr msg_shell) s])%list /\
      Forall (fun e => ~ is_flush e) post).
Proof.
  eapply terminates_conseq; [apply (main_spec h Hresp strerror Hfin 0)|].
  cbv beta. intros tr o _ Hrun Ho.
  destruct Hrun; try discriminate Ho.
  match goal with
  | H : listed _ _ |- _ => inversion H as [pfx0 d p tl cd Hv Hl Heq]; subst; clear H
  end.
  exists (pfx0 ++ [ent (Opendir "/") (Some d)])%list, p,
    (tl ++ [ent (Readdir d) None; ent (Closedir d) cd])%list, s.
  split.
  - repeat (first [rewrite <- app_assoc | progress cbn [app]]). reflexivity.
  - each_entry.
Qed.

End Claims.

(** ** The kernel model answers *)

Lemma kernel_responsive : responsive kernel.
Proof.
  intros c k Hr.
  destruct c; try discriminate Hr; unfold kernel, fail;
    repeat match goal with
           | |- context [match ?x with _ => _ end] => destruct x
           end;
    cbn [snd]; discriminate.
Qed.

Lemma kernel_drains_len n : forall d k l,
  zlookup (k_dirs k) d = Some l -> List.length l = n -> drains kernel d k.
Proof.
  induction n as [|n IH]; intros d k l Hl Hn.
  - destruct l; [|discriminate Hn].
    apply drains_end with k. cbn. rewrite Hl. reflexivity.
  - destruct l as [|name rest]; [discriminate Hn|].
    eapply drains_next.
    + cbn. rewrite Hl. reflexivity.
    + cbn. reflexivity.
    + apply (IH d _ rest); [|cbn in Hn; lia].
      cbn. rewrite Z.eqb_refl. reflexivity.
Qed.

Lemma kernel_finite_dirs : finite_dirs kernel.
Proof.
  intros d k. destruct (zlookup (k_dirs k) d) as [l|] eqn:Hl.
  - apply (kernel_drains_len (List.length l) d k l Hl eq_refl).
  - eapply drains_end. cbn. rewrite Hl. reflexivity.
Qed.

(** ** Path resolution in the kernel model *)

Lemma resolve_dotdot k :
  resolve k ".." =
  match lookup (k_fs k) (k_cwd k) with
  | None => inl ENOENT
  | Some n =>
      if negb (is_dir n) then inl ENOTDIR
      else match lookup (k_fs k) (dotdot k (k_cwd k)) with
           | Some n' => inr (dotdot k (k_cwd k), n')
           | None => inl ENOENT
           end
  end.
Proof.
  unfold resolve, start_dir.
  change (String.eqb ".." "") with false.
  change (absolute "..") with false.
  change (split_slash "..") with [".."].
  cbn [walk]. destruct (lookup (k_fs k) (k_cwd k)) as [n|]; [|reflexivity].
  destruct (negb (is_dir n)); reflexivity.
Qed.

Lemma resolve_temp k :
  resolve k TEMP_DIR =
  match lookup (k_fs k) (k_cwd k) with
  | None => inl ENOENT
  | Some n =>
      if negb (is_dir n) then inl ENOTDIR
      else match lookup (k_fs k) (staging_path k) with
           | Some n' => inr (staging_path k, n')
           | None => inl ENOENT
           end
  end.
Proof.
  unfold resolve, start_dir, staging_path.
  change (String.eqb TEMP_DIR "") with false.
  change (absolute TEMP_DIR) with false.
  change (split_slash TEMP_DIR) with [TEMP_DIR].
  cbn [walk]. destruct (lookup (k_fs k) (k_cwd k)) as [n|]; [|reflexivity].
  destruct (negb (is_dir n)); [reflexivity|].
  change (String.eqb TEMP_DIR "" || String.eqb TEMP_DIR ".") with false.
  change (String.eqb TEMP_DIR "..") with false.
  cbn [negb].
  destruct (lookup (k_fs k) (k_cwd k ++ [TEMP_DIR])%list) eqn:E; cbn [walk];
    [rewrite E|]; reflexivity.
Qed.

Lemma set_cwd_same k : set_cwd k (k_cwd k) = k.
Proof. destruct k; reflexivity. Qed.

(** ** Climbing in the kernel model *)

Lemma chdir_up_fs k : k_fs (chdir_up k) = k_fs k /\ k_root (chdir_up k) = k_root k.
Proof.
  unfold chdir_up, kernel, fail.
  destruct (resolve k "..") as [e | [q n]]; [split; reflexivity|].
  destruct (is_dir n); split; reflexivity.
Qed.

Lemma chdir_up_cwd k : k_cwd (chdir_up k) = up_path k (k_cwd k).
Proof.
  unfold chdir_up, kernel, fail, up_path. rewrite resolve_dotdot.
  destruct (lookup (k_fs k) (k_cwd k)) as [n|]; [|reflexivity].
  destruct (is_dir n) eqn:Hd; cbn [negb]; [|reflexivity].
  destruct (lookup (k_fs k) (dotdot k (k_cwd k))) as [n'|] eqn:Hl; [|reflexivity].
  destruct (is_dir n') eqn:Hd'; reflexivity.
Qed.

Lemma up_path_ext k1 k2 p :
  k_fs k1 = k_fs k2 -> k_root k1 = k_root k2 -> up_path k1 p = up_path k2 p.
Proof. intros Hf Hr. unfold up_path, dotdot. rewrite Hf, Hr. reflexivity. Qed.

Lemma iter_up_ext k1 k2 n p :
  k_fs k1 = k_fs k2 -> k_root k1 = k_root k2 -> iter_up k1 n p = iter_up k2 n p.
Proof.
  intros Hf Hr. revert p. induction n as [|n IH]; intros p; cbn; [reflexivity|].
  rewrite (up_path_ext k1 k2 p Hf Hr). apply IH.
Qed.

Lemma climb_state_cwd n k : k_cwd (climb_state n k) = iter_up k n (k_cwd k).
Proof.
  revert k. induction n as [|n IH]; intros k; cbn; [reflexivity|].
  rewrite IH, chdir_up_cwd. destruct (chdir_up_fs k) as [Hf Hr].
  apply iter_up_ext; assumption.
Qed.

(** The loop of [main] on the kernel model. *)
Lemma climb_kernel n k :
  terminates kernel (climb n) k (fun tr o k' =>
    o = Returned tt /\ k' = climb_state n k /\ List.length tr = n).
Proof.
  revert k. induction n as [|n IH]; intros k; cbn [climb climb_state].
  - apply terminates_ret. auto.
  - unfold chdir. apply (terminates_call kernel (Chdir "..")).
    + intros k1 x E. eapply terminates_conseq; [apply IH|].
      cbv beta. intros tr o k' (-> & -> & Hl).
      unfold chdir_up. rewrite E. cbn. auto.
    + intros k1 E. exfalso. apply (kernel_responsive (Chdir "..") k eq_refl).
      rewrite E. reflexivity.
Qed.


(** ** The temporary directory in the kernel model *)

Lemma dir_at_lookup k p : dir_at k p = true -> exists n, lookup (k_fs k) p = Some n /\ is_dir n = true.
Proof.
  unfold dir_at. destruct (lookup (k_fs k) p) as [n|]; [|discriminate].
  intros H. exists n. auto.
Qed.

Lemma stat_temp_absent k :
  dir_at k (k_cwd k) = true -> lookup (k_fs k) (staging_path k) = None ->
  kernel (Stat TEMP_DIR) k = (set_errno k ENOENT, Some (-1, no_stat)).
Proof.
  intros Hd Hl. destruct (dir_at_lookup _ _ Hd) as (n & Hn & Hdir).
  unfold kernel. rewrite resolve_temp, Hn, Hdir, Hl. reflexivity.
Qed.

Lemma stat_temp_present k n :
  dir_at k (k_cwd k) = true -> lookup (k_fs k) (staging_path k) = Some n ->
  kernel (Stat TEMP_DIR) k = (k, Some (0, stat_of n)).
Proof.
  intros Hd Hl. destruct (dir_at_lookup _ _ Hd) as (d & Hn & Hdir).
  unfold kernel. rewrite resolve_temp, Hn, Hdir, Hl. reflexivity.
Qed.

Lemma mkdir_temp_absent k :
  dir_at k (k_cwd k) = true -> lookup (k_fs k) (staging_path k) = None ->
  exists n, is_dir n = true /\
    kernel (Mkdir TEMP_DIR 493) k = (set_fs k ((staging_path k, n) :: k_fs k), Some 0).
Proof.
  intros Hd Hl. destruct (dir_at_lookup _ _ Hd) as (d & Hn & Hdir).
  exists (mk_node (n_dev d) (k_next k) (Z.lor S_IFDIR 493)). split; [reflexivity|].
  unfold kernel. rewrite resolve_temp, Hn, Hdir, Hl. cbn [negb].
  unfold start_dir.
  change (absolute TEMP_DIR) with false.
  change (split_slash TEMP_DIR) with [TEMP_DIR].
  cbn [removelast walk last]. rewrite Hn, Hdir. reflexivity.
Qed.

Lemma path_eqb_refl p : path_eqb p p = true.
Proof. unfold path_eqb. destruct (list_eq_dec string_dec p p); [reflexivity | contradiction]. Qed.

Lemma path_eqb_neq p q : p <> q -> path_eqb p q = false.
Proof.
  intros H. unfold path_eqb.
  destruct (list_eq_dec string_dec p q); [contradiction | reflexivity].
Qed.


Section StagingKernel.
Variable strerror : Z -> string.

Lemma staging_kernel k :
  dir_at k (k_cwd k) = true ->
  terminates kernel (ensure_staging strerror) k (fun tr o k' =>
    k_root k' = k_root k /\ k_cwd k' = k_cwd k /\
    match lookup (k_fs k) (staging_path k) with
    | None =>
        o = Returned tt /\ dir_at k' (staging_path k) = true /\
        (forall p, p <> staging_path k -> lookup (k_fs k') p = lookup (k_fs k) p) /\
        exists r m, tr = [ent (Stat TEMP_DIR) r; ent Errno ENOENT; ent (Mkdir TEMP_DIR 493) m]
    | Some n =>
        if is_dir n
        then o = Returned tt /\ k' = k /\ tr = [ent (Stat TEMP_DIR) (0, stat_of n)]
        else o = Stopped (Exit 1) /\ k_fs k' = k_fs k /\
             Forall (fun e => ~ changes_state e) tr
    end).
Proof.
  intros Hd. unfold ensure_staging, stat.
  apply (terminates_call kernel (Stat TEMP_DIR));
    [| intros k1 E; exfalso; apply (kernel_responsive (Stat TEMP_DIR) k eq_refl);
       rewrite E; reflexivity].
  intros k1 r E.
  destruct (lookup (k_fs k) (staging_path k)) as [n|] eqn:Hl.
  - rewrite (stat_temp_present k n Hd Hl) in E. injection E as <- <-.
    cbn [fst snd]. change (0 <? 0) with false. cbv iota.
    change (S_ISDIR (st_mode (stat_of n))) with (is_dir n).
    destruct (is_dir n) eqn:Hn; cbn [negb].
    + apply terminates_ret. auto.
    + unfold fprintf. apply (terminates_call kernel (Fprintf stderr _)).
      * intros k2 x E. cbn in E. injection E as <- <-.
        unfold exit. apply (terminates_call kernel (Exit 1)); [intros ? []|].
        intros k3 E. cbn in E. injection E as <-.
        split; [|split; [|split; [reflexivity|split]]].
        -- unfold flushed. destruct (String.eqb _ _); reflexivity.
        -- unfold flushed. destruct (String.eqb _ _); reflexivity.
        -- unfold flushed. destruct (String.eqb _ _); reflexivity.
        -- repeat constructor; cbn; tauto.
      * intros k2 E. discriminate E.
  - rewrite (stat_temp_absent k Hd Hl) in E. injection E as <- <-.
    cbn [fst]. change (-1 <? 0) with true. cbv iota.
    unfold errno. apply (terminates_call kernel Errno); [|intros k2 E; discriminate E].
    intros k2 e E. cbn in E. injection E as <- <-.
    change (ENOENT =? ENOENT) with true. cbv iota.
    unfold mkdir. apply (terminates_call kernel (Mkdir TEMP_DIR 493)).
    + intros k3 m E.
      destruct (mkdir_temp_absent (set_errno k ENOENT) Hd Hl) as (n & Hn & Hk).
      rewrite Hk in E. injection E as <- <-.
      change (0 <? 0) with false. cbv iota.
      apply terminates_ret.
      split; [reflexivity|]. split; [reflexivity|]. split; [reflexivity|].
      split; [|split].
      * unfold dir_at. cbn. change (staging_path (set_errno k ENOENT)) with (staging_path k).
        rewrite path_eqb_refl. exact Hn.
      * intros p Hp. cbn. change (staging_path (set_errno k ENOENT)) with (staging_path k).
        rewrite path_eqb_neq by (intros Heq; apply Hp; symmetry; exact Heq). reflexivity.
      * eexists _, _. reflexivity.
    + intros k3 E. exfalso.
      apply (kernel_responsive (Mkdir TEMP_DIR 493) (set_errno k ENOENT) eq_refl).
      rewrite E. reflexivity.
Qed.


End StagingKernel.

(** ** Scripted operating systems answer *)

Lemma scripted_responsive (answer : nat -> forall c : call, option (ret_ty c)) :
  (forall n c, returns c = true -> answer n c <> None) -> responsive (scripted answer).
Proof. intros H c n Hr. apply H. exact Hr. Qed.

Lemma scripted_finite (answer : nat -> forall c : call, option (ret_ty c)) :
  (forall n d, answer n (Readdir d) = Some None) -> finite_dirs (scripted answer).
Proof. intros H d n. apply drains_end with (S n). unfold scripted. rewrite H. reflexivity. Qed.

Lemma opendir_refused_responsive : responsive opendir_refused.
Proof.
  apply scripted_responsive. intros n c Hr.
  destruct c; try discriminate Hr; cbn; discriminate.
Qed.

Lemma opendir_refused_finite : finite_dirs opendir_refused.
Proof. apply scripted_finite. reflexivity. Qed.

Lemma climb_refused_responsive : responsive climb_refused.
Proof.
  apply scripted_responsive. intros n c Hr.
  destruct c; try discriminate Hr; cbn; try discriminate.
  match goal with
  | |- context [String.eqb ?p "."] => destruct (String.eqb p "."); discriminate
  end.
Qed.

Lemma climb_refused_finite : finite_dirs climb_refused.
Proof. apply scripted_finite. reflexivity. Qed.

Lemma call_okb_ok e : call_okb e = true -> call_ok e.
Proof.
  destruct e as [c x]. destruct c; cbn; intros H;
    try (apply Z.eqb_eq in H); try (apply Z.leb_le in H); try exact H; try exact I;
    try discriminate H.
  destruct x; [discriminate | discriminate H].
Qed.

Lemma all_ok tr : forallb call_okb tr = true -> Forall call_ok tr.
Proof.
  intros H. apply Forall_forall. intros e He.
  apply call_okb_ok. rewrite forallb_forall in H. apply H, He.
Qed.

(** ** The claims on concrete machines *)


(** C1, as the specification states it, fails: [chdir("..")] and
    [chroot(".")] return an error, the program neither stops nor exits
    with a non-zero status; it announces success and returns 0. *)
Lemma unchecked_climb_counterexample :
  nth_error (r_trace (run climb_refused 1100 (main c_strerror ["chbreak"; "--no-shell"]) O)) 6
    = Some (ent (Chdir "..") (-1)) /\
  nth_error (r_trace (run climb_refused 1100 (main c_strerror ["chbreak"; "--no-shell"]) O)) 1030
    = Some (ent (Chroot ".") (-1)) /\
  stderr_text (r_trace (run climb_refused 1100 (main c_strerror ["chbreak"; "--no-shell"]) O))
    = [msg_broken] /\
  r_halt (run climb_refused 1100 (main c_strerror ["chbreak"; "--no-shell"]) O) = Returned 0.
Proof. vm_compute. repeat split; reflexivity. Qed.

(** For an ordinary user the chroot to the temporary directory fails, which
    is one of the tested calls: the failure is printed and the run ends
    with status 1. *)
Lemma tested_calls_are_fatal_witness :
  responsive kernel /\ finite_dirs kernel /\
  r_halt (kernel_run ["chbreak"] jailed_user) = Stopped (Exit 1) /\
  Forall diagnostic (skipn 6 (r_trace (kernel_run ["chbreak"] jailed_user))) /\
  exists en text x,
    In (ent (Fprintf stderr text) x)
       (skipn 6 (r_trace (kernel_run ["chbreak"] jailed_user))) /\
    In text (failure_texts c_strerror en).
Proof.
  unfold kernel_run.
  split; [exact kernel_responsive|]. split; [exact kernel_finite_dirs|].
  pose proof (terminates_run kernel _ _ _ 1100%nat
                (tested_calls_are_fatal kernel kernel_responsive kernel_finite_dirs
                   c_strerror ["chbreak"] jailed_user)) as H.
  cbv beta in H. specialize (H ltac:(vm_compute; reflexivity)).
  destruct H as [H _].
  apply (H (firstn 5 (r_trace (run kernel 1100 (main c_strerror ["chbreak"]) jailed_user)))
           (ent (Chroot TEMP_DIR) (-1))).
  - vm_compute. reflexivity.
  - cbn. split; [reflexivity | lia].
Defined.

(** On the kernel model, root in a jail where the temporary directory
    exists: every call succeeds, the two identities of "/" differ, and the
    run announces success. *)
Lemma verdict_by_identity_witness :
  responsive kernel /\ finite_dirs kernel /\
  Forall call_ok (r_trace (kernel_run ["chbreak"; "--no-shell"] jailed_prepared)) /\
  root_stats (r_trace (kernel_run ["chbreak"; "--no-shell"] jailed_prepared))
    = [stat_of (dir_node 10); stat_of (dir_node 2)] /\
  In msg_broken (stderr_text (r_trace (kernel_run ["chbreak"; "--no-shell"] jailed_prepared))).
Proof.
  unfold kernel_run.
  split; [exact kernel_responsive|]. split; [exact kernel_finite_dirs|].
  assert (Hok : Forall call_ok
                  (r_trace (run kernel 1100 (main c_strerror ["chbreak"; "--no-shell"])
                              jailed_prepared)))
    by (apply all_ok; vm_compute; reflexivity).
  assert (Hst : root_stats
                  (r_trace (run kernel 1100 (main c_strerror ["chbreak"; "--no-shell"])
                              jailed_prepared))
                = [stat_of (dir_node 10); stat_of (dir_node 2)])
    by (vm_compute; reflexivity).
  split; [exact Hok|]. split; [exact Hst|].
  pose proof (terminates_run kernel _ _ _ 1100%nat
                (verdict_by_identity kernel kernel_responsive kernel_finite_dirs
                   c_strerror ["chbreak"; "--no-shell"] jailed_prepared)) as H.
  cbv beta in H. specialize (H ltac:(vm_compute; reflexivity) Hok _ _ Hst).
  apply (proj1 H). reflexivity.
Defined.

(** On the kernel model, root in a jail: with ["--no-shell"] the run
    returns 0; without it the run ends inside [execl]. *)
Lemma shell_unless_flag_witness :
  responsive kernel /\ finite_dirs kernel /\
  Forall (fun s => nul_free s = true) ["chbreak"; "--no-shell"] /\
  r_halt (kernel_run ["chbreak"; "--no-shell"] jailed_root) = Returned 0.
Proof.
  unfold kernel_run.
  split; [exact kernel_responsive|]. split; [exact kernel_finite_dirs|].
  assert (Hargv : Forall (fun s => nul_free s = true) ["chbreak"; "--no-shell"])
    by (repeat constructor).
  split; [exact Hargv|].
  pose proof (terminates_run kernel _ _ _ 1100%nat
                (shell_unless_flag kernel kernel_responsive kernel_finite_dirs
                   c_strerror ["chbreak"; "--no-shell"] jailed_root Hargv)) as H.
  cbv beta in H. specialize (H ltac:(vm_compute; reflexivity) 102 0).
  assert (Hin : In (ent (Closedir 102) 0)
                  (r_trace (run kernel 1100 (main c_strerror ["chbreak"; "--no-shell"])
                              jailed_root))).
  { apply (nth_error_In _ 1050). vm_compute. reflexivity. }
  destruct (H Hin) as [Hflag _].
  apply Hflag. reflexivity.
Defined.

(** On the kernel model, an ordinary user in a jail: the chroot fails, the
    diagnostic and the hint are printed, the run ends with status 1. *)
Lemma nested_chroot_failure_witness :
  responsive kernel /\ finite_dirs kernel /\
  nth_error (r_trace (kernel_run ["chbreak"] jailed_user)) 5
    = Some (ent (Chroot TEMP_DIR) (-1)) /\
  stderr_text (r_trace (kernel_run ["chbreak"] jailed_user))
    = [msg_chroot c_strerror EPERM; msg_hint] /\
  r_halt (kernel_run ["chbreak"] jailed_user) = Stopped (Exit 1).
Proof.
  unfold kernel_run.
  split; [exact kernel_responsive|]. split; [exact kernel_finite_dirs|].
  split; [vm_compute; reflexivity|]. split; [vm_compute; reflexivity|].
  pose proof (terminates_run kernel _ _ _ 1100%nat
                (nested_chroot_failure kernel kernel_responsive kernel_finite_dirs
                   c_strerror ["chbreak"] jailed_user)) as H.
  cbv beta in H. specialize (H ltac:(vm_compute; reflexivity)).
  apply (H (firstn 5 (r_trace (run kernel 1100 (main c_strerror ["chbreak"]) jailed_user)))
           (-1)
           (skipn 6 (r_trace (run kernel 1100 (main c_strerror ["chbreak"]) jailed_user)))).
  - vm_compute. reflexivity.
  - lia.
Defined.


(** On a machine where [opendir] fails the run ends with status 1. *)
Lemma opendir_failure_is_fatal_witness :
  responsive opendir_refused /\ finite_dirs opendir_refused /\
  nth_error (r_trace (run opendir_refused 1100 (main c_strerror ["chbreak"]) O)) 1035
    = Some (ent (Opendir "/") None) /\
  r_halt (run opendir_refused 1100 (main c_strerror ["chbreak"]) O) = Stopped (Exit 1).
Proof.
  split; [exact opendir_refused_responsive|]. split; [exact opendir_refused_finite|].
  split; [vm_compute; reflexivity|].
  pose proof (terminates_run opendir_refused _ _ _ 1100%nat
                (opendir_failure_is_fatal opendir_refused opendir_refused_responsive
                   opendir_refused_finite c_strerror ["chbreak"] O)) as H.
  cbv beta in H.
  specialize (H ltac:(vm_compute; reflexivity)
                (firstn 1035 (r_trace (run opendir_refused 1100 (main c_strerror ["chbreak"]) O)))
                (skipn 1036 (r_trace (run opendir_refused 1100 (main c_strerror ["chbreak"]) O)))
                ltac:(vm_compute; reflexivity)).
  exact (proj1 H).
Defined.

(** With an empty argument vector the test gives true and nothing
    undefined is reached. *)
Lemma short_argv_takes_shell_witness :
  responsive kernel /\ finite_dirs kernel /\ (List.length (@nil string) <= 1)%nat /\
  wants_shell [] = Some true /\
  r_halt (kernel_run [] jailed_root) = Stopped (Execl "/bin/sh" ["-i"]).
Proof.
  unfold kernel_run.
  split; [exact kernel_responsive|]. split; [exact kernel_finite_dirs|].
  assert (Hlen : (List.length (@nil string) <= 1)%nat) by (cbn; lia).
  split; [exact Hlen|].
  destruct (short_argv_takes_shell kernel kernel_responsive kernel_finite_dirs
              c_strerror [] jailed_root Hlen) as [Hw _].
  split; [exact Hw|]. vm_compute. reflexivity.
Defined.

(** C4 fails on the code.  Root in a jail, [stdout] not a terminal, no
    argument: the only [fflush(stdout)] comes before anything is written to
    [stdout]; the listing is written after it and the announcement of the
    shell is written to [stderr] after [fflush(stderr)]; [execl] then
    replaces the process, and of all the text only the two lines of
    [stderr] have been written out. *)
Theorem listing_lost_on_exec :
  r_halt (kernel_run ["chbreak"] jailed_root) = Stopped (Execl "/bin/sh" ["-i"]) /\
  stdout_text (firstn 1034 (r_trace (kernel_run ["chbreak"] jailed_root))) = [] /\
  map e_call (skipn 1033 (r_trace (kernel_run ["chbreak"] jailed_root))) =
    [Fflush stdout; Stat "/"; Fprintf stderr msg_broken; Fflush stderr; Opendir "/";
     Fprintf stdout msg_dir;
     Readdir 102; Fprintf stdout ("." ++ nl);
     Readdir 102; Fprintf stdout (".." ++ nl);
     Readdir 102; Fprintf stdout ("bin" ++ nl);
     Readdir 102; Fprintf stdout ("etc" ++ nl);
     Readdir 102; Fprintf stdout ("jail" ++ nl);
     Readdir 102; Closedir 102; Fprintf stderr msg_shell] /\
  k_output (r_world (kernel_run ["chbreak"] jailed_root)) =
    [(stderr, msg_broken); (stderr, msg_shell)] /\
  k_buffer (r_world (kernel_run ["chbreak"] jailed_root)) = "".
Proof. vm_compute. repeat split; reflexivity. Qed.




(** ** Further runs on the concrete machines *)

(** The scenario of the specification, on the kernel model: root confined
    to [/jail] ends with the real root as its root and working directory,
    and the listing names entries that exist outside the jail only. *)
Example escape_reaches_the_real_root :
  k_root (r_world (kernel_run ["chbreak"; "--no-shell"] jailed_root)) = [] /\
  k_cwd (r_world (kernel_run ["chbreak"; "--no-shell"] jailed_root)) = [] /\
  stdout_text (r_trace (kernel_run ["chbreak"; "--no-shell"] jailed_root)) =
    [msg_dir; "." ++ nl; ".." ++ nl; "bin" ++ nl; "etc" ++ nl; "jail" ++ nl] /\
  r_halt (kernel_run ["chbreak"; "--no-shell"] jailed_root) = Returned 0.
Proof. vm_compute. repeat split; reflexivity. Qed.

(** A process that is not confined has nothing to escape from: both looks
    at "/" give the same identity and the run says that breaking out did
    not work. *)
Example unconfined_run_is_ineffective :
  root_stats (r_trace (kernel_run ["chbreak"] not_jailed)) =
    [stat_of (dir_node 2); stat_of (dir_node 2)] /\
  stderr_text (r_trace (kernel_run ["chbreak"] not_jailed)) = [msg_ineffective] /\
  r_halt (kernel_run ["chbreak"] not_jailed) = Stopped (Exit 1).
Proof. vm_compute. repeat split; reflexivity. Qed.

(** [execl] coming back with an error, after an escape that worked. *)
Example refused_exec_run :
  stderr_text (r_trace (run exec_refused 1100 (main c_strerror ["chbreak"]) O)) =
    [msg_broken; msg_shell; msg_exec c_strerror ENOENT] /\
  r_halt (run exec_refused 1100 (main c_strerror ["chbreak"]) O) = Stopped (Exit 1).
Proof. vm_compute. split; reflexivity. Qed.

(** [open] of the working directory refused: nothing but the diagnostic
    follows. *)
Example refused_open_run :
  map e_call (r_trace (run open_refused 1100 (main c_strerror ["chbreak"]) O)) =
    [Stat "/"; Stat TEMP_DIR; Open "." O_RDONLY; Errno;
     Fprintf stderr (msg_open c_strerror 24)] /\
  r_halt (run open_refused 1100 (main c_strerror ["chbreak"]) O) = Stopped (Exit 1).
Proof. vm_compute. split; reflexivity. Qed.

(** ** Further properties of the runs of [main] *)

Lemma stdout_text_cons e tr : stdout_text (e :: tr) = (stdout_line e ++ stdout_text tr)%list.
Proof. reflexivity. Qed.

Lemma stdout_text_app a b : stdout_text (a ++ b) = (stdout_text a ++ stdout_text b)%list.
Proof. apply flat_map_app. Qed.

Lemma readdir_names_cons e tr :
  readdir_names (e :: tr) = (readdir_name e ++ readdir_names tr)%list.
Proof. reflexivity. Qed.

Lemma readdir_names_app a b :
  readdir_names (a ++ b) = (readdir_names a ++ readdir_names b)%list.
Proof. apply flat_map_app. Qed.

Lemma climbs_stdout n tc : climbs n tc -> stdout_text tc = [].
Proof. induction 1; [reflexivity | assumption]. Qed.

Lemma climbs_names n tc : climbs n tc -> readdir_names tc = [].
Proof. induction 1; [reflexivity | assumption]. Qed.

(** The loop prints each name it reads, and nothing else. *)
Lemma listing_stdout d tl :
  listing d tl -> stdout_text tl = map (fun name => name ++ nl) (readdir_names tl).
Proof.
  induction 1 as [|name x tr _ IH]; [reflexivity|].
  rewrite stdout_text_cons, stdout_text_cons, !readdir_names_cons. cbn.
  rewrite IH. reflexivity.
Qed.

Lemma last_app_cons {A} (l : list A) a m d : last (l ++ a :: m) d = last (a :: m) d.
Proof.
  induction l as [|b l IH]; [reflexivity|].
  cbn [app]. change (last (b :: l ++ a :: m) d) with
    (match (l ++ a :: m)%list with [] => b | _ => last (l ++ a :: m) d end).
  destruct (l ++ a :: m)%list eqn:E; [destruct l; discriminate E | exact IH].
Qed.

(** The entry before a position of a log. *)
Lemma entry_before (P : entry -> Prop) (pre : list entry) (d : entry) :
  pre <> [] -> P (last pre d) -> exists pre' f, pre = (pre' ++ [f])%list /\ P f.
Proof.
  intros Hne HP. exists (removelast pre), (last pre d).
  split; [apply app_removelast_last; exact Hne | exact HP].
Qed.

Lemma last_cons_app {A} (b : A) (l : list A) a m d :
  last (b :: l ++ a :: m) d = last (a :: m) d.
Proof. apply (last_app_cons (b :: l)). Qed.

Lemma last_cons_cons {A} (a b : A) (l : list A) d : last (a :: b :: l) d = last (b :: l) d.
Proof. reflexivity. Qed.

Lemma last_single {A} (a d : A) : last [a] d = a.
Proof. reflexivity. Qed.

Ltac last_entry :=
  repeat first [ rewrite last_app_cons | rewrite last_cons_app
               | rewrite last_cons_cons | rewrite last_single ].

Section Runs.
Context {W : Type} (h : os W).
Hypothesis Hresp : responsive h.
Hypothesis Hfin : finite_dirs h.
Variable strerror : Z -> string.

(** X1.  Whatever the arguments, a run of [main] ends, and in one of three
    ways: [main] returns 0, the process exits with status 1, or it is
    replaced by [/bin/sh -i].  It does not exit with status 1 only if "/"
    was looked at twice and device or inode differ; the same holds whenever
    success is announced. *)
Theorem main_ends argv w :
  terminates h (main strerror argv) w (fun tr o _ =>
    (o = Returned 0 \/ o = Stopped (Exit 1) \/ o = Stopped (Execl "/bin/sh" ["-i"])) /\
    (o <> Stopped (Exit 1) \/ In msg_broken (stderr_text tr) ->
     exists sbuf1 sbuf2, root_stats tr = [sbuf1; sbuf2] /\ same_file sbuf1 sbuf2 = false)).
Proof.
  eapply terminates_conseq; [apply (main_spec h Hresp strerror Hfin 0)|].
  cbv beta. intros tr o _ Hrun. split.
  - destruct Hrun; auto.
  - destruct Hrun; flatten; read_log; intros [Ho | Hin];
      try congruence;
      try solve [ repeat (destruct Hin as [Hin | Hin]; [discriminate Hin|]); destruct Hin ];
      eexists _, _; split; try reflexivity; assumption.
Qed.

(** X2.  What a run leaves on [stderr] is fixed by how it ends: the success
    line alone or followed by the announcement of the shell when [main]
    returns, both lines when the shell takes over, and one of twelve
    reports when the process exits with status 1. *)
Theorem stderr_by_ending argv w :
  terminates h (main strerror argv) w (fun tr o _ =>
    (o = Returned 0 ->
     stderr_text tr = [msg_broken] \/ stderr_text tr = [msg_broken; msg_shell]) /\
    (o = Stopped (Execl "/bin/sh" ["-i"]) -> stderr_text tr = [msg_broken; msg_shell]) /\
    (o = Stopped (Exit 1) -> exists e, In (stderr_text tr) (exit_reports strerror e))).
Proof.
  eapply terminates_conseq; [apply (main_spec h Hresp strerror Hfin 0)|].
  cbv beta. intros tr o _ Hrun.
  destruct Hrun; flatten; read_log.
  all: split; [intros Ho; try discriminate Ho; auto|].
  all: split; [intros Ho; try discriminate Ho; auto|].
  all: intros Ho; try discriminate Ho.
  all: first [ exists e'; unfold exit_reports; cbn [In]; tauto
             | exists e; unfold exit_reports; cbn [In]; tauto
             | exists 0; unfold exit_reports; cbn [In]; tauto ].
Qed.

(** X6.  The calls of a run are the ones [main] is written to make, with
    the arguments it gives them: the only paths handed to the system are
    "/", the temporary directory, ".", ".." and "/bin/sh", the only
    directory created is the temporary one with mode 0755, and the only
    exit status is 1. *)
Theorem calls_and_paths argv w :
  terminates h (main strerror argv) w (fun tr o _ =>
    Forall (fun e => expected_call (e_call e) = true) tr /\
    forall c, o = Stopped c -> expected_call c = true).
Proof.
  eapply terminates_conseq; [apply (main_spec h Hresp strerror Hfin 0)|].
  cbv beta. intros tr o _ Hrun.
  split.
  - destruct Hrun; flatten; each_entry; reflexivity.
  - intros c Ho. destruct Hrun; inversion Ho; reflexivity.
Qed.

(** X3.  [errno] is read only right after a call that has just failed, or
    right after another read of it, so no other call can have changed it;
    and the value read is put to use by the very next call. *)
Theorem errno_read_after_failure argv w :
  terminates h (main strerror argv) w (fun tr o _ =>
    forall pre e post, tr = (pre ++ ent Errno e :: post)%list ->
      (exists pre' f, pre = (pre' ++ [f])%list /\
         (came_back_failed f = true \/ e_call f = Errno)) /\
      (exists next post', post = next :: post' /\ uses_errno strerror e next)).
Proof.
  eapply terminates_conseq; [apply (main_spec h Hresp strerror Hfin 0)|].
  cbv beta. intros tr o _ Hrun pre e0 post.
  destruct Hrun; flatten; intros Hsplit; symmetry in Hsplit.
  all: locate Hsplit.
  all: split;
    [ apply (entry_before _ _ (ent Errno 0)); [discriminate|]; last_entry
    | eexists _, _; split; [reflexivity|] ].
  all: try solve [ right; reflexivity ].
  all: try solve [ left; cbn;
                   first [ apply Z.ltb_lt; assumption
                         | apply negb_true_iff, Z.eqb_neq; assumption
                         | reflexivity ] ].
  all: try solve [ unfold uses_errno, failure_texts; cbn [e_call ent projT1 In]; tauto ].
Qed.

(** X4.  What a run writes to [stdout] is the header line followed by the
    names that [readdir] returned, one per line and in the order they came,
    once the root directory has been opened; in a run where it has not
    been opened nothing is written to [stdout] and [readdir] is not
    called. *)
Theorem listing_echoes_readdir argv w :
  terminates h (main strerror argv) w (fun tr o _ =>
    (forall d, In (ent (Opendir "/") (Some d)) tr ->
       stdout_text tr = msg_dir :: map (fun name => name ++ nl) (readdir_names tr)) /\
    ((forall d, ~ In (ent (Opendir "/") (Some d)) tr) ->
       stdout_text tr = [] /\
       Forall (fun e => forall d, e_call e <> Readdir d) tr)).
Proof.
  eapply terminates_conseq; [apply (main_spec h Hresp strerror Hfin 0)|].
  cbv beta. intros tr o _ Hrun.
  assert (Hcases :
    (stdout_text tr = [] /\
     Forall (fun e => forall d, e_call e <> Readdir d) tr /\
     forall d, ~ In (ent (Opendir "/") (Some d)) tr) \/
    (stdout_text tr = msg_dir :: map (fun name => name ++ nl) (readdir_names tr) /\
     exists d, In (ent (Opendir "/") (Some d)) tr)).
  { destruct Hrun; flatten.
    all: repeat first
           [ rewrite stdout_text_cons | rewrite stdout_text_app
           | rewrite readdir_names_cons | rewrite readdir_names_app
           | erewrite climbs_stdout by eassumption
           | erewrite climbs_names by eassumption
           | erewrite listing_stdout by eassumption ].
    all: cbn [stdout_line readdir_name e_call ent projT1 app].
    all: try solve [ right; split; [rewrite ?app_nil_r; reflexivity | eexists; find_in] ].
    all: left; split; [reflexivity|]; split; [| intros d' Hin; search Hin].
    all: each_entry; cbn; intros; discriminate. }
  destruct Hcases as [(Hs & Hn & Hno) | (Hs & d0 & Hd0)].
  - split; [intros d Hin; destruct (Hno d Hin) | auto].
  - split; [auto | intros Hno; destruct (Hno d0 Hd0)].
Qed.


(** X7.  [mkdir] is called at most once in a run, for the temporary
    directory with mode 0755, and only as the third call: after a [stat]
    of "/" that worked and a [stat] of the temporary directory that failed
    with [errno] equal to [ENOENT]. *)
Theorem mkdir_only_when_absent argv w :
  terminates h (main strerror argv) w (fun tr o _ =>
    forall pre p mode m post, tr = (pre ++ ent (Mkdir p mode) m :: post)%list ->
      p = TEMP_DIR /\ mode = 493 /\
      (exists r1 r,
         pre = [ent (Stat "/") r1; ent (Stat TEMP_DIR) r; ent Errno ENOENT] /\
         fst r1 = 0 /\ fst r < 0) /\
      Forall (fun e => forall p' mode', e_call e <> Mkdir p' mode') post).
Proof.
  eapply terminates_conseq; [apply (main_spec h Hresp strerror Hfin 0)|].
  cbv beta. intros tr o _ Hrun pre p mode m post.
  destruct Hrun; flatten; intros Hsplit; symmetry in Hsplit.
  all: locate Hsplit.
  all: match goal with
       | Hh : ent (Mkdir _ _) _ = ent _ _ |- _ =>
           let Hcall := fresh "Hcall" in
           let Hm := fresh "Hm" in
           let Hp := fresh "Hp" in
           pose proof (ent_call _ _ _ _ Hh) as Hcall; injection Hcall as Hp Hm;
           clear Hh; subst p mode
       end.
  all: split; [reflexivity|]; split; [reflexivity|].
  all: split; [eexists _, _; split; [reflexivity|]; split; assumption|].
  all: subst post; each_entry; cbn; intros; discriminate.
Qed.

End Runs.

(** ** The build without [NEED_FCHDIR] *)

Section MacroOff.
Context {W : Type} (h : os W).
Hypothesis Hresp : responsive h.
Hypothesis Hfin : finite_dirs h.
Variable strerror : Z -> string.

(** Runs all of whose entries satisfy [P], piece by piece. *)
Lemma terminates_all_call {R} (P : entry -> Prop) (G : halt R -> W -> Prop) c
  (k : ret_ty c -> itree sysE R) w :
  (forall x, P (ent c x)) ->
  (forall w1 x, h c w = (w1, Some x) ->
     terminates h (k x) w1 (fun tr o w' => Forall P tr /\ G o w')) ->
  (forall w1, h c w = (w1, None) -> G (Stopped c) w1) ->
  terminates h (ITree.bind (sys c) k) w (fun tr o w' => Forall P tr /\ G o w').
Proof.
  intros HP Hs Hn. apply terminates_call.
  - intros w1 x E. eapply terminates_conseq; [apply (Hs w1 x E)|].
    cbv beta. intros tr o w' [Hf Hg]. split; [constructor; auto | exact Hg].
  - intros w1 E. split; [constructor | eauto].
Qed.

Lemma terminates_all_bind {A R} (P : entry -> Prop) (G : halt R -> W -> Prop)
  (t : itree sysE A) (k : A -> itree sysE R) w :
  terminates h t w (fun tr o w1 =>
    Forall P tr /\
    match o with
    | Returned a => terminates h (k a) w1 (fun tr2 o2 w' => Forall P tr2 /\ G o2 w')
    | Stopped c => G (Stopped c) w1
    | OutOfFuel => False
    end) ->
  terminates h (ITree.bind t k) w (fun tr o w' => Forall P tr /\ G o w').
Proof.
  intros H. apply terminates_bind. eapply terminates_conseq; [exact H|].
  cbv beta. intros tr o w1 [Hf Hm]. destruct o as [a|c|]; [| auto | exact Hm].
  eapply terminates_conseq; [exact Hm|].
  cbv beta. intros tr2 o2 w' [Hf2 Hg]. split; [apply Forall_app; auto | exact Hg].
Qed.

Lemma terminates_all_ret {R} (P : entry -> Prop) (G : halt R -> W -> Prop) (r : R) w :
  G (Returned r) w -> terminates h (Ret r) w (fun tr o w' => Forall P tr /\ G o w').
Proof. intros Hg. apply terminates_ret. split; [constructor | exact Hg]. Qed.

Ltac acall :=
  unfold stat, mkdir, open, chroot, geteuid, fchdir, close, chdir, errno, fflush,
    printf, fprintf, opendir, readdir, closedir, execl;
  lazymatch goal with
  | |- terminates _ (ITree.bind (sys ?c) _) _ _ =>
      apply (terminates_all_call _ _ c);
      [ intros ?; cbn; tauto
      | let w' := fresh "w" in let x := fresh "x" in let E := fresh "E" in
        intros w' x E
      | let E := fresh "E" in
        intros ? E; try (apply (no_return h Hresp _ _ _ _ E); reflexivity) ]
  end.

Ltac adie :=
  unfold exit; apply (terminates_all_call _ _ (Exit 1));
  [ intros ?; cbn; tauto | intros ? [] | intros ? ?; auto ].

(** X11.  Built without [NEED_FCHDIR], [main] never opens, uses or closes a
    file descriptor, and its runs end in the same three ways. *)
Theorem no_descriptor_without_macro argv w :
  terminates h (main_with strerror None argv) w (fun tr o _ =>
    Forall (fun e => ~ descriptor_call e) tr /\
    (o = Returned 0 \/ o = Stopped (Exit 1) \/ o = Stopped (Execl "/bin/sh" ["-i"]))).
Proof.
  unfold main_with. cbn [ifdef]. acall. rename x into r1.
  apply terminates_all_bind.
  destruct (fst r1 =? 0); cbn [negb]; [apply terminates_all_ret | acall; acall; adie].
  (* the temporary directory *)
  apply terminates_all_bind.
  eapply terminates_conseq; [apply (ensure_staging_spec h Hresp strerror)|].
  cbv beta. intros ts o ws Hs.
  split; [inversion Hs; each_entry|].
  destruct o as [[]|c|]; [| inversion Hs; auto | inversion Hs].
  clear Hs ts.
  apply terminates_all_bind, terminates_all_ret.
  (* chroot to the temporary directory *)
  apply terminates_all_bind. unfold nest_chroot. acall.
  destruct (x <? 0).
  { acall. acall. acall. apply terminates_all_bind.
    destruct (negb (x2 =? 0)); [acall; apply terminates_all_ret | apply terminates_all_ret];
      adie. }
  apply terminates_all_ret.
  apply terminates_all_bind, terminates_all_ret.
  (* the climb and the second chroot *)
  apply terminates_all_bind.
  eapply terminates_conseq; [apply (climb_spec h Hresp)|].
  cbv beta. intros tc o wc [-> Hclimbs].
  split; [each_entry|].
  acall. acall. acall. rename x2 into r2.
  apply terminates_all_bind.
  destruct (fst r2 =? 0); cbn [negb]; [apply terminates_all_ret | acall; acall; adie].
  apply terminates_all_bind.
  destruct ((st_dev (snd r1) =? st_dev (snd r2)) && (st_ino (snd r1) =? st_ino (snd r2)));
    [acall; adie | apply terminates_all_ret].
  acall. acall.
  (* the listing *)
  apply terminates_all_bind. unfold list_root. acall.
  destruct x4 as [d|]; [| acall; acall; adie].
  acall. apply terminates_all_bind.
  eapply terminates_conseq; [apply (print_entries_spec h Hresp), Hfin|].
  cbv beta. intros tl' o wl (-> & tl & Hl & ->).
  split; [each_entry|].
  acall. apply terminates_all_ret.
  (* the shell *)
  unfold handoff. destruct (wants_shell argv) as [[|]|] eqn:Hw.
  - acall. acall; [| auto].
    destruct (x7 <? 0); [acall; acall; adie | apply terminates_all_ret; auto].
  - apply terminates_all_ret. auto.
  - destruct (wants_shell_defined argv Hw).
Qed.

End MacroOff.

(** ** The listing loop *)

Section Loop.
Context {W : Type} (h : os W).
Hypothesis Hresp : responsive h.

Lemma loop_ends_drains d : forall fuel w,
  finished (r_halt (run h fuel (print_entries d) w)) = true -> drains h d w.
Proof.
  induction fuel as [fuel IH] using lt_wf_ind. intros w Hf.
  destruct fuel as [|f]; [discriminate Hf|].
  unfold print_entries in Hf.
  rewrite (run_observe h _ _ _ _ (observe_iter _ _)) in Hf.
  rewrite run_bind in Hf. unfold readdir in Hf.
  rewrite (run_sys h (Readdir d)) in Hf.
  destruct (h (Readdir d) w) as [w1 [[name|]|]] eqn:E1.
  - destruct f as [|f1]; [discriminate Hf|].
    unfold printf, fprintf in Hf.
    rewrite (run_sys h (Fprintf stdout (name ++ nl))) in Hf.
    destruct (h (Fprintf stdout (name ++ nl)) w1) as [w2 [x|]] eqn:E2.
    + destruct f1 as [|f2]; [discriminate Hf|].
      cbn in Hf.
      apply (drains_next h d w w1 name w2 x E1 E2).
      apply (IH f2); [lia | exact Hf].
    + exfalso. apply (Hresp (Fprintf stdout (name ++ nl)) w1 eq_refl).
      rewrite E2. reflexivity.
  - apply (drains_end h d w w1 E1).
  - exfalso. apply (Hresp (Readdir d) w eq_refl). rewrite E1. reflexivity.
Qed.

Lemma never_drains d :
  (forall w, exists w1 name, h (Readdir d) w = (w1, Some (Some name))) ->
  forall w, ~ drains h d w.
Proof.
  intros Hmore w Hd. induction Hd as [w w1 E | w w1 name w2 x E1 E2 _ IH]; [|exact IH].
  destruct (Hmore w) as (w1' & name & E'). congruence.
Qed.

(** X8.  The loop of lines 174-176 ends exactly when the directory stream
    comes to its end: on an operating system that answers, the run of the
    loop ends, given enough steps, if and only if reading the stream
    reaches a NULL.  There is no other way out of the loop: on a stream
    where [readdir] always has one more name the run never ends. *)
Theorem listing_loop_ends_iff d w :
  ((exists fuel, finished (r_halt (run h fuel (print_entries d) w)) = true) <->
   drains h d w) /\
  ((forall w0, exists w1 name, h (Readdir d) w0 = (w1, Some (Some name))) ->
   forall fuel, r_halt (run h fuel (print_entries d) w) = OutOfFuel).
Proof.
  split.
  - split.
    + intros [fuel Hf]. apply (loop_ends_drains d fuel w Hf).
    + intros Hd. pose proof (print_entries_spec h Hresp d w Hd) as Ht.
      apply terminates_elim in Ht. destruct Ht as (fuel & Hf & _). exists fuel. exact Hf.
  - intros Hmore fuel.
    destruct (r_halt (run h fuel (print_entries d) w)) eqn:Ho; [| |reflexivity].
    + exfalso. apply (never_drains d Hmore w), (loop_ends_drains d fuel w).
      rewrite Ho. reflexivity.
    + exfalso. apply (never_drains d Hmore w), (loop_ends_drains d fuel w).
      rewrite Ho. reflexivity.
Qed.

End Loop.

(** ** The whole run on the kernel model *)

Section Invariants.
Context {W : Type} (h : os W).

(** What every call keeps, every run keeps. *)
Lemma run_invariant (I : W -> Prop) :
  (forall c w, I w -> I (fst (h c w))) ->
  forall fuel {R} (t : itree sysE R) w, I w -> I (r_world (run h fuel t w)).
Proof.
  intros Hstep. induction fuel as [|fuel IH]; intros R t w Hw; cbn; [exact Hw|].
  destruct (observe t) as [r|t'|X e k]; cbn; [exact Hw | apply IH; exact Hw |].
  destruct e. specialize (Hstep c w Hw).
  destruct (h c w) as [w' [x|]]; cbn in *; [apply IH|]; exact Hstep.
Qed.

Lemma terminates_invariant {R} (I : W -> Prop) (t : itree sysE R) w
  (Q : list entry -> halt R -> W -> Prop) :
  (forall c w, I w -> I (fst (h c w))) -> I w ->
  terminates h t w Q -> terminates h t w (fun tr o w' => Q tr o w' /\ I w').
Proof.
  intros Hstep Hw [fuel0 H]. exists fuel0. intros fuel Hle.
  destruct (H fuel Hle) as [Hf HQ].
  split; [exact Hf|]. split; [exact HQ|]. apply run_invariant; assumption.
Qed.

End Invariants.

Lemma kernel_no_return c k k1 (Q : Prop) :
  kernel c k = (k1, None) -> returns c = true -> Q.
Proof.
  intros E Hr. exfalso. apply (kernel_responsive c k Hr). rewrite E. reflexivity.
Qed.

Lemma flushed_same_place k : same_place k (flushed k).
Proof. unfold flushed, same_place. destruct (String.eqb _ _); auto. Qed.

Lemma same_place_refl k : same_place k k.
Proof. unfold same_place. auto. Qed.

Lemma same_place_trans k1 k2 k3 : same_place k1 k2 -> same_place k2 k3 -> same_place k1 k3.
Proof. unfold same_place. intros (? & ? & ?) (? & ? & ?). repeat split; congruence. Qed.

(** The calls that do not move leave files, root and working directory as
    they are. *)
Lemma kernel_quiet c k : moves c = false -> same_place k (fst (kernel c k)).
Proof.
  intros Hm. destruct c; try discriminate Hm; unfold kernel, fail;
    repeat match goal with
           | |- context [match ?x with _ => _ end] => destruct x
           end;
    cbn [fst];
    first [ apply flushed_same_place | unfold same_place; cbn; auto ].
Qed.

Lemma flushed_euid k : k_euid (flushed k) = k_euid k /\ k_next (flushed k) = k_next k.
Proof. unfold flushed. destruct (String.eqb _ _); auto. Qed.

(** No call changes the effective user id or takes a number back. *)
Lemma kernel_euid c k :
  k_euid (fst (kernel c k)) = k_euid k /\ k_next k <= k_next (fst (kernel c k)).
Proof.
  destruct c; unfold kernel, fail;
    repeat match goal with
           | |- context [match ?x with _ => _ end] => destruct x
           end;
    cbn [fst]; try solve [ split; [reflexivity | cbn; lia] ];
    pose proof (flushed_euid k) as [He Hn]; rewrite He, Hn; (split; [reflexivity | lia]).
Qed.

Lemma resolve_root k n :
  lookup (k_fs k) (k_root k) = Some n -> is_dir n = true ->
  resolve k "/" = inr (k_root k, n).
Proof.
  intros Hl Hd. unfold resolve, start_dir.
  change (String.eqb "/" "") with false.
  change (absolute "/") with true.
  change (split_slash "/") with [""; ""].
  cbn [walk]. rewrite Hl, Hd. cbn [negb].
  change (String.eqb "" "" || String.eqb "" ".") with true. cbv iota.
  rewrite Hl. reflexivity.
Qed.

Lemma resolve_dot k n :
  lookup (k_fs k) (k_cwd k) = Some n -> is_dir n = true ->
  resolve k "." = inr (k_cwd k, n).
Proof.
  intros Hl Hd. unfold resolve, start_dir.
  change (String.eqb "." "") with false.
  change (absolute ".") with false.
  change (split_slash ".") with ["."].
  cbn [walk]. rewrite Hl, Hd. cbn [negb].
  change (String.eqb "." "" || String.eqb "." ".") with true. cbv iota.
  rewrite Hl. reflexivity.
Qed.

Lemma stat_root k :
  dir_at k (k_root k) = true ->
  exists n, lookup (k_fs k) (k_root k) = Some n /\
    kernel (Stat "/") k = (k, Some (0, stat_of n)).
Proof.
  intros Hd. destruct (dir_at_lookup _ _ Hd) as (n & Hl & Hn).
  exists n. split; [exact Hl|]. unfold kernel. rewrite (resolve_root k n Hl Hn). reflexivity.
Qed.

Lemma open_dot k :
  dir_at k (k_cwd k) = true ->
  kernel (Open "." O_RDONLY) k =
  (set_fds k ((k_next k, k_cwd k) :: k_fds k) (k_next k + 1), Some (k_next k)).
Proof.
  intros Hd. destruct (dir_at_lookup _ _ Hd) as (n & Hl & Hn).
  unfold kernel. rewrite (resolve_dot k n Hl Hn). reflexivity.
Qed.

Lemma chroot_temp k :
  k_euid k = 0 -> dir_at k (k_cwd k) = true -> dir_at k (staging_path k) = true ->
  kernel (Chroot TEMP_DIR) k = (set_root k (staging_path k), Some 0).
Proof.
  intros He Hd Hs.
  destruct (dir_at_lookup _ _ Hd) as (n & Hl & Hn).
  destruct (dir_at_lookup _ _ Hs) as (n' & Hl' & Hn').
  unfold kernel. rewrite He. change (negb (0 =? 0)) with false. cbv iota.
  rewrite resolve_temp, Hl, Hn. cbn [negb]. rewrite Hl'. cbv beta iota.
  rewrite Hn'. reflexivity.
Qed.


Lemma chroot_dot k :
  k_euid k = 0 -> dir_at k (k_cwd k) = true ->
  kernel (Chroot ".") k = (set_root k (k_cwd k), Some 0).
Proof.
  intros He Hd. destruct (dir_at_lookup _ _ Hd) as (n & Hl & Hn).
  unfold kernel. rewrite He. change (negb (0 =? 0)) with false. cbv iota.
  rewrite (resolve_dot k n Hl Hn), Hn. reflexivity.
Qed.

Lemma fchdir_to k fd q :
  zlookup (k_fds k) fd = Some q -> dir_at k q = true ->
  kernel (Fchdir fd) k = (set_cwd k q, Some 0).
Proof. intros Hf Hd. unfold kernel. rewrite Hf, Hd. reflexivity. Qed.

Lemma opendir_root k :
  dir_at k (k_root k) = true ->
  exists d k1, kernel (Opendir "/") k = (k1, Some (Some d)).
Proof.
  intros Hd. destruct (dir_at_lookup _ _ Hd) as (n & Hl & Hn).
  unfold kernel. rewrite (resolve_root k n Hl Hn), Hn. eexists _, _. reflexivity.
Qed.

(** *** The climb along a chain of directories *)

Lemma climb_state_fs n k :
  k_fs (climb_state n k) = k_fs k /\ k_root (climb_state n k) = k_root k.
Proof.
  revert k. induction n as [|n IH]; intros k; cbn; [split; reflexivity|].
  destruct (IH (chdir_up k)) as [Hf Hr]. destruct (chdir_up_fs k) as [Hf' Hr'].
  split; congruence.
Qed.

Lemma climb_state_euid n k : k_euid (climb_state n k) = k_euid k.
Proof.
  revert k. induction n as [|n IH]; intros k; cbn; [reflexivity|].
  rewrite IH. unfold chdir_up. apply kernel_euid.
Qed.

Lemma removelast_firstn_length {A} (p : list A) :
  removelast p = firstn (List.length p - 1) p.
Proof.
  destruct p as [|a p] using rev_ind; [reflexivity|].
  rewrite removelast_last, length_app. cbn [List.length].
  replace (List.length p + 1 - 1)%nat with (List.length p + 0)%nat by lia.
  rewrite firstn_app_2. cbn. rewrite app_nil_r. reflexivity.
Qed.

Lemma chain_firstn k p m : chain k p -> chain k (firstn m p).
Proof. intros Hc i. rewrite firstn_firstn. apply Hc. Qed.

(** From a directory whose ancestors all exist, and none of which is the
    process's root, [".."] goes to the parent. *)
Lemma up_path_chain k p :
  chain k p ->
  (forall m, (0 < m <= List.length p)%nat -> firstn m p <> k_root k) ->
  up_path k p = removelast p.
Proof.
  intros Hc Hr. unfold up_path.
  destruct (dir_at_lookup _ _ (Hc (List.length p))) as (n & Hl & Hn).
  rewrite firstn_all in Hl. rewrite Hl, Hn.
  assert (Hdd : dotdot k p = removelast p).
  { unfold dotdot. destruct p as [|a p]; [destruct (path_eqb [] (k_root k)); reflexivity|].
    rewrite path_eqb_neq; [reflexivity|].
    specialize (Hr (List.length (a :: p)) ltac:(cbn; lia)).
    rewrite firstn_all in Hr. exact Hr. }
  rewrite Hdd.
  destruct (dir_at_lookup _ _ (Hc (List.length p - 1)%nat)) as (n' & Hl' & Hn').
  rewrite <- removelast_firstn_length in Hl'. rewrite Hl', Hn'. reflexivity.
Qed.

Lemma iter_up_chain k n : forall p,
  chain k p ->
  (forall m, (0 < m <= List.length p)%nat -> firstn m p <> k_root k) ->
  iter_up k n p = firstn (List.length p - n) p.
Proof.
  induction n as [|n IH]; intros p Hc Hr; cbn [iter_up].
  - rewrite Nat.sub_0_r, firstn_all. reflexivity.
  - rewrite (up_path_chain k p Hc Hr), removelast_firstn_length.
    rewrite IH.
    + rewrite firstn_firstn, length_firstn. f_equal.
      rewrite (Nat.min_l (List.length p - 1) (List.length p)) by lia.
      rewrite Nat.min_l by lia. lia.
    + apply chain_firstn, Hc.
    + intros m Hm. rewrite length_firstn in Hm.
      rewrite firstn_firstn, Nat.min_l by lia. apply Hr. lia.
Qed.

(** *** Climbing past the real root *)

(** [".."] from a directory that is not the process's root is its parent;
    the real root is its own parent. *)
Lemma dotdot_parent k p :
  (forall m, (0 < m <= List.length p)%nat -> firstn m p <> k_root k) ->
  dotdot k p = removelast p.
Proof.
  intros Hr. unfold dotdot.
  destruct p as [|a p]; [destruct (path_eqb [] (k_root k)); reflexivity|].
  rewrite path_eqb_neq; [reflexivity|].
  specialize (Hr (List.length (a :: p)) ltac:(cbn; lia)).
  rewrite firstn_all in Hr. exact Hr.
Qed.

(** One [chdir("..")] from a directory whose ancestors are all in place,
    none of them being the process's root: it succeeds and the working
    directory is the parent. *)
Lemma chdir_parent k :
  chain k (k_cwd k) ->
  (forall m, (0 < m <= List.length (k_cwd k))%nat -> firstn m (k_cwd k) <> k_root k) ->
  kernel (Chdir "..") k = (set_cwd k (removelast (k_cwd k)), Some 0).
Proof.
  intros Hc Hr. unfold kernel. rewrite resolve_dotdot.
  destruct (dir_at_lookup _ _ (Hc (List.length (k_cwd k)))) as (n & Hl & Hn).
  rewrite firstn_all in Hl. rewrite Hl, Hn. cbn [negb].
  rewrite (dotdot_parent k (k_cwd k) Hr).
  destruct (dir_at_lookup _ _ (Hc (List.length (k_cwd k) - 1)%nat)) as (n' & Hl' & Hn').
  rewrite <- removelast_firstn_length in Hl'. rewrite Hl', Hn'. reflexivity.
Qed.

(** [n] times [chdir("..")] along such a chain: every call succeeds and
    each goes one directory up, until the real root, where it stays. *)
Lemma climb_parents n : forall k,
  chain k (k_cwd k) ->
  (forall m, (0 < m <= List.length (k_cwd k))%nat -> firstn m (k_cwd k) <> k_root k) ->
  terminates kernel (climb n) k (fun tr o k' =>
    o = Returned tt /\ tr = repeat (ent (Chdir "..") 0) n /\
    k_cwd k' = firstn (List.length (k_cwd k) - n) (k_cwd k) /\
    k_fs k' = k_fs k /\ k_root k' = k_root k /\
    (k_cwd k = [] -> k' = k)).
Proof.
  induction n as [|n IH]; intros k Hc Hr; cbn [climb].
  - apply terminates_ret. rewrite Nat.sub_0_r, firstn_all. auto 10.
  - unfold chdir. apply (terminates_call kernel (Chdir "..")).
    + intros k1 x E. rewrite (chdir_parent k Hc Hr) in E. injection E as <- <-.
      eapply terminates_conseq.
      * apply IH.
        -- intros m. cbn [k_cwd set_cwd]. 
           rewrite removelast_firstn_length, firstn_firstn. apply Hc.
        -- intros m Hm. cbn [k_cwd k_root set_cwd] in *.
           rewrite removelast_firstn_length in *. rewrite length_firstn in Hm.
           rewrite firstn_firstn, Nat.min_l by lia. apply Hr. lia.
      * cbv beta. cbn [k_cwd k_root k_fs set_cwd].
        intros tr o k' (-> & -> & Hcwd & Hfs & Hroot & Hsame).
        split; [reflexivity|]. split; [reflexivity|]. split.
        { rewrite Hcwd, removelast_firstn_length, firstn_firstn, length_firstn. f_equal.
          rewrite (Nat.min_l (List.length (k_cwd k) - 1) (List.length (k_cwd k))) by lia.
          rewrite Nat.min_l by lia. lia. }
        split; [exact Hfs|]. split; [exact Hroot|].
        intros H0. rewrite H0 in Hsame. cbn [removelast] in Hsame.
        rewrite Hsame by reflexivity. rewrite <- H0. apply set_cwd_same.
    + intros k1 E. rewrite (chdir_parent k Hc Hr) in E. discriminate E.
Qed.

(** C5.  On the kernel model, from a working directory whose ancestors are
    all in place and outside the process's root (the state after the nested
    chroot): [climb n] makes [n] calls of [chdir("..")], each returning 0,
    and leaves the working directory [n] levels up, at the real root as
    soon as [n] is at least the depth.  At the real root the calls change
    nothing: the state after the loop is the state before.  So from a
    working directory at most two levels down, 1024 parent changes and 2
    parent changes both end at the real root. *)
Theorem climbing_past_the_root (k : kstate) :
  chain k (k_cwd k) ->
  (forall m, (0 < m <= List.length (k_cwd k))%nat -> firstn m (k_cwd k) <> k_root k) ->
  (forall n,
     terminates kernel (climb n) k (fun tr o k' =>
       o = Returned tt /\ tr = repeat (ent (Chdir "..") 0) n /\
       k_cwd k' = firstn (List.length (k_cwd k) - n) (k_cwd k) /\
       ((List.length (k_cwd k) <= n)%nat -> k_cwd k' = []) /\
       (k_cwd k = [] -> k' = k))) /\
  ((List.length (k_cwd k) <= 2)%nat ->
   terminates kernel (climb 1024) k (fun _ o k' => o = Returned tt /\ k_cwd k' = []) /\
   terminates kernel (climb 2) k (fun _ o k' => o = Returned tt /\ k_cwd k' = [])).
Proof.
  intros Hc Hr.
  assert (Hall : forall n,
     terminates kernel (climb n) k (fun tr o k' =>
       o = Returned tt /\ tr = repeat (ent (Chdir "..") 0) n /\
       k_cwd k' = firstn (List.length (k_cwd k) - n) (k_cwd k) /\
       ((List.length (k_cwd k) <= n)%nat -> k_cwd k' = []) /\
       (k_cwd k = [] -> k' = k))).
  { intros n. eapply terminates_conseq; [apply (climb_parents n k Hc Hr)|].
    cbv beta. intros tr o k' (Ho & Htr & Hcwd & _ & _ & Hsame).
    split; [exact Ho|]. split; [exact Htr|]. split; [exact Hcwd|]. split; [|exact Hsame].
    intros Hlen. rewrite Hcwd.
    replace (List.length (k_cwd k) - n)%nat with O by lia. reflexivity. }
  split; [exact Hall|].
  intros H2. split.
  - eapply terminates_conseq; [apply (Hall 1024%nat)|].
    cbv beta. intros tr o k' (Ho & _ & _ & Hroot & _). split; [exact Ho | apply Hroot; lia].
  - eapply terminates_conseq; [apply (Hall 2%nat)|].
    cbv beta. intros tr o k' (Ho & _ & _ & Hroot & _). split; [exact Ho | apply Hroot; lia].
Qed.

Lemma chain_ext k k' p :
  (forall q, (List.length q <= List.length p)%nat -> lookup (k_fs k') q = lookup (k_fs k) q) ->
  chain k p -> chain k' p.
Proof.
  intros Hq Hc m. specialize (Hc m). unfold dir_at in *.
  rewrite Hq; [exact Hc|]. rewrite length_firstn. lia.
Qed.

Lemma climbed_to_shorter k : (List.length (climbed_to k) <= List.length (k_cwd k))%nat.
Proof. unfold climbed_to. rewrite length_firstn. lia. Qed.

Lemma shorter_not_staging k q :
  (List.length q <= List.length (k_cwd k))%nat -> q <> staging_path k.
Proof.
  intros Hle Heq. apply (f_equal (@List.length string)) in Heq.
  unfold staging_path in Heq. rewrite length_app in Heq. cbn in Heq. lia.
Qed.

Section KernelRuns.
Variable strerror : Z -> string.

Ltac kcall :=
  unfold stat, mkdir, open, chroot, geteuid, fchdir, close, chdir, errno, fflush,
    printf, fprintf, opendir, readdir, closedir, execl;
  lazymatch goal with
  | |- terminates _ (ITree.bind (sys ?c) _) _ _ =>
      apply (terminates_call kernel c);
      [ let k' := fresh "k" in let x := fresh "x" in let E := fresh "E" in
        intros k' x E
      | let E := fresh "E" in
        intros ? E; try (apply (kernel_no_return _ _ _ _ E); reflexivity) ]
  end.

Ltac kcall_as k' x E :=
  unfold stat, mkdir, open, chroot, geteuid, fchdir, close, chdir, errno, fflush,
    printf, fprintf, opendir, readdir, closedir, execl;
  lazymatch goal with
  | |- terminates _ (ITree.bind (sys ?c) _) _ _ =>
      apply (terminates_call kernel c);
      [ intros k' x E
      | intros k' E; try (apply (kernel_no_return _ _ _ _ E); reflexivity) ]
  end.

(** [E : kernel c k = (k', _)] for a call that does not move: [k'] is at
    the same place as [k]. *)
Ltac quiet E H :=
  lazymatch type of E with
  | kernel ?c ?k = (?k', _) =>
      pose proof (kernel_quiet c k eq_refl) as H; rewrite E in H; cbn [fst] in H
  end.

(** The temporary directory is there after the preparation, and nothing
    else has changed. *)
Lemma staging_kernel_state k :
  dir_at k (k_cwd k) = true ->
  lookup (k_fs k) (staging_path k) = None \/ dir_at k (staging_path k) = true ->
  terminates kernel (ensure_staging strerror) k (fun _ o k1 =>
    o = Returned tt /\ k_root k1 = k_root k /\ k_cwd k1 = k_cwd k /\
    k_euid k1 = k_euid k /\ k_next k <= k_next k1 /\
    dir_at k1 (staging_path k) = true /\
    forall p, p <> staging_path k -> lookup (k_fs k1) p = lookup (k_fs k) p).
Proof.
  intros Hd Hs.
  eapply terminates_conseq.
  - apply (terminates_invariant kernel
             (fun k1 => k_euid k1 = k_euid k /\ k_next k <= k_next k1));
      [| split; [reflexivity | lia] | apply (staging_kernel strerror k Hd)].
    intros c w [He Hn]. destruct (kernel_euid c w) as [He' Hn']. split; [congruence | lia].
  - cbv beta. intros tr o k1 [(Hr & Hc & Hcase) [He Hn]].
    destruct Hs as [Hs | Hs].
    + rewrite Hs in Hcase. destruct Hcase as (-> & Hdir & Hold & _). auto 10.
    + unfold dir_at in Hs.
      destruct (lookup (k_fs k) (staging_path k)) as [n|] eqn:Hl; [|discriminate Hs].
      rewrite Hs in Hcase. destruct Hcase as (-> & -> & _).
      repeat split; auto; try lia. unfold dir_at. rewrite Hl. exact Hs.
Qed.

Lemma print_entries_kernel d k :
  terminates kernel (print_entries d) k (fun _ o k' => o = Returned tt /\ same_place k k').
Proof.
  induction (kernel_finite_dirs d k) as [w w1 E | w w1 name w2 x E1 E2 _ IH];
    unfold print_entries;
    (eapply terminates_observe; [apply observe_iter|]);
    apply terminates_bind; kcall.
  - rewrite E in E0. injection E0 as <- <-.
    apply terminates_ret. apply terminates_ret.
    split; [reflexivity|]. quiet E Hq. exact Hq.
  - rewrite E1 in E. injection E as <- <-.
    kcall. rewrite E2 in E. injection E as <- <-.
    apply terminates_ret. apply terminates_tau.
    eapply terminates_conseq; [apply IH|].
    cbv beta. intros tr o k' (-> & Hs).
    split; [reflexivity|]. quiet E1 Hq1. quiet E2 Hq2.
    eauto using same_place_trans.
Qed.

(** The rest of [main] after the second chroot changes neither the files,
    nor the root, nor the working directory. *)
Lemma rest_of_main_kernel argv k sbuf1 :
  dir_at k (k_root k) = true ->
  terminates kernel
    (r2 <- stat "/" ;;
     (if negb (fst r2 =? 0) then
        e <- errno ;;
        fprintf stderr ("Failed to stat2 /: " ++ strerror e ++ nl) ;;
        exit 1
      else Ret tt) ;;
     (if (st_dev sbuf1 =? st_dev (snd r2)) && (st_ino sbuf1 =? st_ino (snd r2)) then
        fprintf stderr ("Breaking out of the chroot did not work." ++ nl) ;;
        exit 1
      else Ret tt) ;;
     fprintf stderr ("Broken out of the chroot." ++ nl) ;;
     fflush stderr ;;
     list_root strerror ;;
     handoff strerror argv) k
    (fun _ o k' =>
       same_place k k' /\
       exists n2, lookup (k_fs k) (k_root k) = Some n2 /\
         (same_file sbuf1 (stat_of n2) = true -> o = Stopped (Exit 1)) /\
         (same_file sbuf1 (stat_of n2) = false ->
            (wants_shell argv = Some false -> o = Returned 0) /\
            (wants_shell argv = Some true ->
               o = Stopped (Execl "/bin/sh" ["-i"]) \/ o = Stopped (Exit 1)))).
Proof.
  intros Hroot.
  destruct (stat_root k Hroot) as (n2 & Hl2 & Hstat).
  kcall. rewrite Hstat in E. injection E as <- <-.
  cbn [fst snd]. change (negb (0 =? 0)) with false. cbv iota.
  apply terminates_bind, terminates_ret. cbn [app].
  fold (same_file sbuf1 (stat_of n2)).
  destruct (same_file sbuf1 (stat_of n2)) eqn:Hsame.
  { apply terminates_bind. kcall. quiet E Hq.
    unfold exit. apply (terminates_call kernel (Exit 1)); [intros ? []|].
    intros k1 E1. quiet E1 Hq1.
    split; [eauto using same_place_trans|].
    exists n2. split; [exact Hl2|]. split; [intros _; reflexivity | intros Hf; congruence]. }
  apply terminates_bind, terminates_ret. cbn [app].
  kcall. quiet E Hq. clear E.
  kcall. quiet E Hq0. clear E.
  assert (Hs : same_place k k1) by eauto using same_place_trans.
  clear Hq Hq0 k0.
  apply terminates_conseq with
    (Q := fun _ o k' =>
            same_place k1 k' /\
            (wants_shell argv = Some false -> o = Returned 0) /\
            (wants_shell argv = Some true ->
               o = Stopped (Execl "/bin/sh" ["-i"]) \/ o = Stopped (Exit 1))).
  2:{ intros _ o k' (Hs' & Hno & Hyes).
      split; [eauto using same_place_trans|].
      exists n2. split; [exact Hl2|]. split; [congruence | auto]. }
  assert (Hroot1 : dir_at k1 (k_root k1) = true).
  { destruct Hs as (Hf & Hr & _). unfold dir_at. rewrite Hf, Hr. exact Hroot. }
  destruct (opendir_root k1 Hroot1) as (d & k2 & Hopen).
  clear Hs Hroot1 Hstat Hl2 Hsame Hroot.
  (* the listing *)
  apply terminates_bind. unfold list_root. kcall.
  quiet E Hq. rewrite Hopen in E. injection E as <- <-.
  kcall. quiet E Hq0.
  apply terminates_bind.
  eapply terminates_conseq; [apply print_entries_kernel|].
  cbv beta. intros _ o k4 (-> & Hq1).
  kcall. quiet E0 Hq2. apply terminates_ret.
  assert (Hs : same_place k1 k3) by eauto using same_place_trans.
  clear Hq Hq0 Hq1 Hq2 E E0 Hopen.
  (* the shell *)
  unfold handoff. destruct (wants_shell argv) as [[|]|] eqn:Hw.
  - kcall_as ka xa Ea. quiet Ea Hq. kcall_as kb r Eb.
    + quiet Eb Hq0.
      assert (Hx : r = -1).
      { unfold kernel, fail in Eb.
        destruct (resolve ka "/bin/sh") as [e | [q n]]; [|destruct (is_dir n)];
          congruence. }
      subst r. change (-1 <? 0) with true. cbv iota.
      kcall_as kc e Ec. quiet Ec Hq1. kcall_as kd xd Ed. quiet Ed Hq2.
      unfold exit. apply (terminates_call kernel (Exit 1)); [intros ? []|].
      intros ke Ee. quiet Ee Hq3.
      split; [eauto 10 using same_place_trans|].
      split; [discriminate | auto].
    + quiet Eb Hq0.
      split; [eauto using same_place_trans|].
      split; [discriminate | auto].
  - apply terminates_ret.
    split; [exact Hs|]. split; [auto | discriminate].
  - destruct (wants_shell_defined argv Hw).
Qed.

(** From the nested chroot on: the climb, the second chroot, the check and
    what follows. *)
Lemma climb_out_kernel argv k k5 n1 :
  chain k (k_cwd k) ->
  lookup (k_fs k) (k_root k) = Some n1 ->
  (forall q, (List.length q <= List.length (k_cwd k))%nat ->
     lookup (k_fs k5) q = lookup (k_fs k) q) ->
  k_root k5 = staging_path k -> k_cwd k5 = k_cwd k -> k_euid k5 = 0 ->
  terminates kernel
    (climb 1024 ;;
     chroot "." ;;
     fflush stdout ;;
     r2 <- stat "/" ;;
     (if negb (fst r2 =? 0) then
        e <- errno ;;
        fprintf stderr ("Failed to stat2 /: " ++ strerror e ++ nl) ;;
        exit 1
      else Ret tt) ;;
     (if (st_dev (stat_of n1) =? st_dev (snd r2))
         && (st_ino (stat_of n1) =? st_ino (snd r2)) then
        fprintf stderr ("Breaking out of the chroot did not work." ++ nl) ;;
        exit 1
      else Ret tt) ;;
     fprintf stderr ("Broken out of the chroot." ++ nl) ;;
     fflush stderr ;;
     list_root strerror ;;
     handoff strerror argv) k5
    (fun _ o k' =>
       k_root k' = climbed_to k /\ k_cwd k' = climbed_to k /\
       ((List.length (k_cwd k) <= 1024)%nat -> k_root k' = []) /\
       exists n1 n2,
         lookup (k_fs k) (k_root k) = Some n1 /\
         lookup (k_fs k) (climbed_to k) = Some n2 /\
         (same_file (stat_of n1) (stat_of n2) = true -> o = Stopped (Exit 1)) /\
         (same_file (stat_of n1) (stat_of n2) = false ->
            (wants_shell argv = Some false -> o = Returned 0) /\
            (wants_shell argv = Some true ->
               o = Stopped (Execl "/bin/sh" ["-i"]) \/ o = Stopped (Exit 1)))).
Proof.
  intros Hchain Hl1 Hold5 Hr5 Hc5 He5.
  (* the climb *)
  apply terminates_bind.
  eapply terminates_conseq; [apply climb_kernel|].
  cbv beta. intros _ o k6 (-> & -> & _).
  destruct (climb_state_fs 1024 k5) as [Hf6 Hr6].
  pose proof (climb_state_euid 1024 k5) as He6.
  pose proof (climb_state_cwd 1024 k5) as Hc6.
  rewrite iter_up_chain in Hc6.
  2:{ rewrite Hc5. apply chain_ext with k; [exact Hold5 | exact Hchain]. }
  2:{ intros m Hm. rewrite Hr5, Hc5. intros Heq.
      apply (f_equal (@List.length string)) in Heq.
      unfold staging_path in Heq.
      rewrite length_firstn, length_app in Heq. cbn in Heq. lia. }
  rewrite Hc5 in Hc6. fold (climbed_to k) in Hc6.
  rewrite He5 in He6.
  assert (Hold6 : forall q, (List.length q <= List.length (k_cwd k))%nat ->
                    lookup (k_fs (climb_state 1024 k5)) q = lookup (k_fs k) q).
  { intros q Hq. rewrite Hf6. apply Hold5, Hq. }
  clear Hf6 Hr6 Hold5 Hr5 Hc5 He5.
  revert Hc6 He6 Hold6. generalize (climb_state 1024 k5). clear k5.
  intros k6 Hc6 He6 Hold6.
  assert (Hthere : dir_at k (climbed_to k) = true) by apply Hchain.
  assert (Hcwd6 : dir_at k6 (k_cwd k6) = true).
  { unfold dir_at. rewrite Hc6, Hold6 by apply climbed_to_shorter. exact Hthere. }
  (* the second chroot and the flush *)
  kcall_as k7 cr E. rewrite (chroot_dot k6 He6 Hcwd6) in E. injection E as <- <-.
  kcall_as k8 fl E. quiet E Hq. destruct Hq as (Hf8 & Hr8 & Hc8).
  cbn in Hf8, Hr8, Hc8. rewrite Hc6 in Hr8, Hc8. clear E fl.
  assert (Hroot8 : dir_at k8 (k_root k8) = true).
  { unfold dir_at. rewrite Hr8, Hf8, Hold6 by apply climbed_to_shorter. exact Hthere. }
  (* the rest *)
  eapply terminates_conseq; [apply (rest_of_main_kernel argv k8 (stat_of n1) Hroot8)|].
  cbv beta. intros _ o k' ((Hf & Hr & Hc) & n2 & Hl2 & Hsame & Hdiff).
  split; [congruence|]. split; [congruence|]. split.
  { intros Hlen. rewrite Hr, Hr8. unfold climbed_to.
    replace (List.length (k_cwd k) - 1024)%nat with O by lia. reflexivity. }
  exists n1, n2. split; [exact Hl1|]. split; [|split; assumption].
  rewrite Hr8, Hf8, Hold6 in Hl2 by apply climbed_to_shorter. exact Hl2.
Qed.

(** X9.  The escape on the kernel model, whether or not the blocks under
    [NEED_FCHDIR] are compiled in.  A process with effective user id 0,
    whose root is a directory and whose working directory has all its
    ancestors in place, with nothing or a directory at the path of the
    temporary directory: the run ends with root and working directory at
    the place 1024 times [".."] lead to from the working directory, which
    is the real root unless the working directory is more than 1024 levels
    deep.  The two looks at "/" are the old root and that place; when their
    identities are the same the run exits with status 1, and when they
    differ it returns 0 with ["--no-shell"] and ends in [execl] or in a
    failed [execl] without. *)
Theorem escape_on_kernel need_fchdir argv k :
  k_euid k = 0 -> 0 <= k_next k ->
  dir_at k (k_root k) = true -> chain k (k_cwd k) ->
  lookup (k_fs k) (staging_path k) = None \/ dir_at k (staging_path k) = true ->
  terminates kernel (main_with strerror need_fchdir argv) k (fun _ o k' =>
    k_root k' = climbed_to k /\ k_cwd k' = climbed_to k /\
    ((List.length (k_cwd k) <= 1024)%nat -> k_root k' = []) /\
    exists n1 n2,
      lookup (k_fs k) (k_root k) = Some n1 /\
      lookup (k_fs k) (climbed_to k) = Some n2 /\
      (same_file (stat_of n1) (stat_of n2) = true -> o = Stopped (Exit 1)) /\
      (same_file (stat_of n1) (stat_of n2) = false ->
         (wants_shell argv = Some false -> o = Returned 0) /\
         (wants_shell argv = Some true ->
            o = Stopped (Execl "/bin/sh" ["-i"]) \/ o = Stopped (Exit 1)))).
Proof.
  intros Heuid Hnext Hroot Hchain Hstaging.
  assert (Hcwd : dir_at k (k_cwd k) = true).
  { specialize (Hchain (List.length (k_cwd k))). rewrite firstn_all in Hchain. exact Hchain. }
  unfold main_with.
  (* the first look at "/" *)
  destruct (stat_root k Hroot) as (n1 & Hl1 & Hstat).
  kcall_as k0 r1 E. rewrite Hstat in E. injection E as <- <-.
  cbn [fst snd]. change (negb (0 =? 0)) with false. cbv iota.
  apply terminates_bind, terminates_ret. cbn [app].
  (* the temporary directory *)
  apply terminates_bind.
  eapply terminates_conseq; [apply (staging_kernel_state k Hcwd Hstaging)|].
  cbv beta. intros _ o k1 (-> & Hr1 & Hc1 & He1 & Hn1 & Hd1 & Hold).
  assert (Hcwd1 : dir_at k1 (k_cwd k1) = true).
  { unfold dir_at. rewrite Hc1, Hold by (apply shorter_not_staging; lia). exact Hcwd. }
  assert (Hstg1 : dir_at k1 (staging_path k1) = true).
  { unfold staging_path. rewrite Hc1. exact Hd1. }
  assert (Hold1 : forall q, (List.length q <= List.length (k_cwd k))%nat ->
                    lookup (k_fs k1) q = lookup (k_fs k) q).
  { intros q Hq. apply Hold, shorter_not_staging, Hq. }
  assert (Heuid1 : k_euid k1 = 0) by congruence.
  destruct need_fchdir as [v|]; cbn [ifdef].
  - (* open, chroot, fchdir, close *)
    apply terminates_bind. unfold open_cwd.
    kcall_as k2 dir_fd E. rewrite (open_dot k1 Hcwd1) in E. injection E as <- <-.
    destruct (k_next k1 <? 0) eqn:Hfd; [apply Z.ltb_lt in Hfd; lia|]. clear Hfd.
    apply terminates_ret.
    apply terminates_bind. unfold nest_chroot.
    kcall_as k3 c E.
    rewrite chroot_temp in E; [| exact Heuid1 | exact Hcwd1 | exact Hstg1 ].
    injection E as <- <-. change (0 <? 0) with false. cbv iota.
    apply terminates_ret.
    apply terminates_bind. unfold restore_cwd.
    kcall_as k4 f E.
    rewrite (fchdir_to _ _ (k_cwd k1)) in E;
      [| cbn; rewrite Z.eqb_refl; reflexivity | exact Hcwd1 ].
    injection E as <- <-. change (0 <? 0) with false. cbv iota.
    kcall_as k5 cl E. quiet E Hq.
    match type of E with
    | kernel ?c ?kk = _ => destruct (kernel_euid c kk) as [He5 _]
    end.
    rewrite E in He5. cbn in He5. destruct Hq as (Hf5 & Hr5 & Hc5).
    cbn in Hf5, Hr5, Hc5. clear E cl. apply terminates_ret.
    apply (climb_out_kernel argv k k5 n1 Hchain Hl1).
    + intros q Hq. rewrite Hf5. apply Hold1, Hq.
    + rewrite Hr5. unfold staging_path. rewrite Hc1. reflexivity.
    + congruence.
    + congruence.
  - (* chroot alone *)
    apply terminates_bind, terminates_ret. cbn [app].
    apply terminates_bind. unfold nest_chroot.
    kcall_as k3 c E.
    rewrite (chroot_temp k1 Heuid1 Hcwd1 Hstg1) in E.
    injection E as <- <-. change (0 <? 0) with false. cbv iota.
    apply terminates_ret.
    apply terminates_bind, terminates_ret. cbn [app].
    apply (climb_out_kernel argv k (set_root k1 (staging_path k1)) n1 Hchain Hl1).
    + exact Hold1.
    + cbn. unfold staging_path. rewrite Hc1. reflexivity.
    + exact Hc1.
    + exact Heuid1.
Qed.



End KernelRuns.

(** ** The further properties on concrete machines *)

Lemma endless_dir_responsive : responsive endless_dir.
Proof.
  apply scripted_responsive. intros n c Hr.
  destruct c; try discriminate Hr; cbn; discriminate.
Qed.

Lemma jailed_root_chain : chain jailed_root (k_cwd jailed_root).
Proof. intros [|[|m]]; reflexivity. Qed.

(** Root in a jail, no argument: the run ends in the shell, and the two
    looks at "/" differ. *)
Lemma main_ends_witness :
  responsive kernel /\ finite_dirs kernel /\
  exists sbuf1 sbuf2,
    root_stats (r_trace (kernel_run ["chbreak"] jailed_root)) = [sbuf1; sbuf2] /\
    same_file sbuf1 sbuf2 = false.
Proof.
  unfold kernel_run.
  split; [exact kernel_responsive|]. split; [exact kernel_finite_dirs|].
  pose proof (terminates_run kernel _ _ _ 1100%nat
                (main_ends kernel kernel_responsive kernel_finite_dirs
                   c_strerror ["chbreak"] jailed_root)) as H.
  cbv beta in H. specialize (H ltac:(vm_compute; reflexivity)).
  destruct H as [_ H]. apply H. left. vm_compute. discriminate.
Defined.

(** An ordinary user in a jail: the run exits with status 1 and [stderr]
    holds one of the reports. *)
Lemma stderr_by_ending_witness :
  responsive kernel /\ finite_dirs kernel /\
  r_halt (kernel_run ["chbreak"] jailed_user) = Stopped (Exit 1) /\
  exists e, In (stderr_text (r_trace (kernel_run ["chbreak"] jailed_user)))
              (exit_reports c_strerror e).
Proof.
  unfold kernel_run.
  split; [exact kernel_responsive|]. split; [exact kernel_finite_dirs|].
  assert (Ho : r_halt (run kernel 1100 (main c_strerror ["chbreak"]) jailed_user)
               = Stopped (Exit 1)) by (vm_compute; reflexivity).
  split; [exact Ho|].
  pose proof (terminates_run kernel _ _ _ 1100%nat
                (stderr_by_ending kernel kernel_responsive kernel_finite_dirs
                   c_strerror ["chbreak"] jailed_user)) as H.
  cbv beta in H. specialize (H ltac:(vm_compute; reflexivity)).
  destruct H as (_ & _ & H). apply H. exact Ho.
Defined.

(** An ordinary user in a jail: [errno] is read right after the chroot that
    was denied, and its text is printed next. *)
Lemma errno_read_after_failure_witness :
  responsive kernel /\ finite_dirs kernel /\
  (exists pre' f,
     firstn 6 (r_trace (run kernel 1100 (main c_strerror ["chbreak"]) jailed_user))
       = (pre' ++ [f])%list /\
     (came_back_failed f = true \/ e_call f = Errno)) /\
  (exists next post',
     skipn 7 (r_trace (run kernel 1100 (main c_strerror ["chbreak"]) jailed_user))
       = next :: post' /\
     uses_errno c_strerror EPERM next).
Proof.
  split; [exact kernel_responsive|]. split; [exact kernel_finite_dirs|].
  pose proof (terminates_run kernel _ _ _ 1100%nat
                (errno_read_after_failure kernel kernel_responsive kernel_finite_dirs
                   c_strerror ["chbreak"] jailed_user)) as H.
  cbv beta in H. specialize (H ltac:(vm_compute; reflexivity)).
  apply (H (firstn 6 (r_trace (run kernel 1100 (main c_strerror ["chbreak"]) jailed_user)))
           EPERM
           (skipn 7 (r_trace (run kernel 1100 (main c_strerror ["chbreak"]) jailed_user)))).
  vm_compute. reflexivity.
Defined.

(** Root in a jail: [stdout] holds the header and the five names of the
    real root. *)
Lemma listing_echoes_readdir_witness :
  responsive kernel /\ finite_dirs kernel /\
  stdout_text (r_trace (run kernel 1100 (main c_strerror ["chbreak"; "--no-shell"])
                          jailed_root))
  = msg_dir :: map (fun name => name ++ nl)
                 (readdir_names
                    (r_trace (run kernel 1100 (main c_strerror ["chbreak"; "--no-shell"])
                                jailed_root))).
Proof.
  split; [exact kernel_responsive|]. split; [exact kernel_finite_dirs|].
  pose proof (terminates_run kernel _ _ _ 1100%nat
                (listing_echoes_readdir kernel kernel_responsive kernel_finite_dirs
                   c_strerror ["chbreak"; "--no-shell"] jailed_root)) as H.
  cbv beta in H. specialize (H ltac:(vm_compute; reflexivity)).
  destruct H as [H _]. apply (H 102).
  apply (nth_error_In _ 1037). vm_compute. reflexivity.
Defined.


(** Root in a jail: every call of the run is an expected one. *)
Lemma calls_and_paths_witness :
  responsive kernel /\ finite_dirs kernel /\
  Forall (fun e => expected_call (e_call e) = true)
    (r_trace (run kernel 1100 (main c_strerror ["chbreak"]) jailed_root)).
Proof.
  split; [exact kernel_responsive|]. split; [exact kernel_finite_dirs|].
  pose proof (terminates_run kernel _ _ _ 1100%nat
                (calls_and_paths kernel kernel_responsive kernel_finite_dirs
                   c_strerror ["chbreak"] jailed_root)) as H.
  cbv beta in H. specialize (H ltac:(vm_compute; reflexivity)).
  exact (proj1 H).
Defined.

(** Root in a jail with no temporary directory yet: [mkdir] is the fourth
    call. *)
Lemma mkdir_only_when_absent_witness :
  responsive kernel /\ finite_dirs kernel /\
  exists r1 r,
    firstn 3 (r_trace (run kernel 1100 (main c_strerror ["chbreak"]) jailed_root))
      = [ent (Stat "/") r1; ent (Stat TEMP_DIR) r; ent Errno ENOENT] /\
    fst r1 = 0 /\ fst r < 0.
Proof.
  split; [exact kernel_responsive|]. split; [exact kernel_finite_dirs|].
  pose proof (terminates_run kernel _ _ _ 1100%nat
                (mkdir_only_when_absent kernel kernel_responsive kernel_finite_dirs
                   c_strerror ["chbreak"] jailed_root)) as H.
  cbv beta in H. specialize (H ltac:(vm_compute; reflexivity)).
  apply (H (firstn 3 (r_trace (run kernel 1100 (main c_strerror ["chbreak"]) jailed_root)))
           TEMP_DIR 493 0
           (skipn 4 (r_trace (run kernel 1100 (main c_strerror ["chbreak"]) jailed_root)))).
  vm_compute. reflexivity.
Defined.

(** A directory that never ends: the loop is still running after 500
    steps. *)
Lemma listing_loop_ends_iff_witness :
  responsive endless_dir /\
  r_halt (run endless_dir 500 (print_entries 3) O) = OutOfFuel.
Proof.
  split; [exact endless_dir_responsive|].
  apply (proj2 (listing_loop_ends_iff endless_dir endless_dir_responsive 3 O)).
  intros w0. eexists _, _. reflexivity.
Defined.

(** Root in [/jail]: the run ends with the real root as its root. *)
Lemma escape_on_kernel_witness :
  k_euid jailed_root = 0 /\ 0 <= k_next jailed_root /\
  dir_at jailed_root (k_root jailed_root) = true /\
  chain jailed_root (k_cwd jailed_root) /\
  (lookup (k_fs jailed_root) (staging_path jailed_root) = None \/
   dir_at jailed_root (staging_path jailed_root) = true) /\
  k_root (r_world (run kernel 1100 (main_with c_strerror NEED_FCHDIR ["chbreak"; "--no-shell"])
                     jailed_root)) = [].
Proof.
  assert (Hs : lookup (k_fs jailed_root) (staging_path jailed_root) = None \/
               dir_at jailed_root (staging_path jailed_root) = true) by (left; reflexivity).
  split; [reflexivity|]. split; [cbn; lia|]. split; [reflexivity|].
  split; [exact jailed_root_chain|]. split; [exact Hs|].
  pose proof (terminates_run kernel _ _ _ 1100%nat
                (escape_on_kernel c_strerror NEED_FCHDIR ["chbreak"; "--no-shell"] jailed_root
                   eq_refl ltac:(cbn; lia) eq_refl jailed_root_chain Hs)) as H.
  cbv beta in H. specialize (H ltac:(vm_compute; reflexivity)).
  destruct H as (_ & _ & H & _). apply H. cbn. lia.
Defined.


(** Root in a jail, the build without [NEED_FCHDIR]: no descriptor is
    touched. *)
Lemma no_descriptor_without_macro_witness :
  responsive kernel /\ finite_dirs kernel /\
  Forall (fun e => ~ descriptor_call e)
    (r_trace (run kernel 1100 (main_with c_strerror None ["chbreak"]) jailed_root)).
Proof.
  split; [exact kernel_responsive|]. split; [exact kernel_finite_dirs|].
  pose proof (terminates_run kernel _ _ _ 1100%nat
                (no_descriptor_without_macro kernel kernel_responsive kernel_finite_dirs
                   c_strerror ["chbreak"] jailed_root)) as H.
  cbv beta in H. specialize (H ltac:(vm_compute; reflexivity)).
  exact (proj1 H).
Defined.

Lemma nested_state_chain : chain nested_state (k_cwd nested_state).
Proof. intros [|[|m]]; reflexivity. Qed.

Lemma nested_state_outside m :
  (0 < m <= List.length (k_cwd nested_state))%nat ->
  firstn m (k_cwd nested_state) <> k_root nested_state.
Proof. intros Hm. destruct m as [|[|m]]; cbn; [lia | discriminate | discriminate]. Qed.

(** Right after the chroot to [/jail/waterbuffalo], from [/jail]: 1024 and
    2 parent changes both end at the real root. *)
Lemma climbing_past_the_root_witness :
  chain nested_state (k_cwd nested_state) /\
  (forall m, (0 < m <= List.length (k_cwd nested_state))%nat ->
     firstn m (k_cwd nested_state) <> k_root nested_state) /\
  (List.length (k_cwd nested_state) <= 2)%nat /\
  k_cwd (r_world (run kernel 1100 (climb 1024) nested_state)) = [] /\
  k_cwd (r_world (run kernel 1100 (climb 2) nested_state)) = [].
Proof.
  assert (Hlen : (List.length (k_cwd nested_state) <= 2)%nat) by (cbn; lia).
  split; [exact nested_state_chain|]. split; [exact nested_state_outside|].
  split; [exact Hlen|].
  destruct (climbing_past_the_root nested_state nested_state_chain nested_state_outside)
    as (_ & H).
  destruct (H Hlen) as [H1024 H2].
  split.
  - apply (terminates_run kernel _ _ _ 1100%nat H1024). vm_compute. reflexivity.
  - apply (terminates_run kernel _ _ _ 1100%nat H2). vm_compute. reflexivity.
Defined.
